(** * PubControl: a shallow embedding of [pubcontrol.py]

    The [PubControl] class manages a list of publishing clients and a shared
    ZMQ XPUB socket.  Its methods are embedded as computations in a small
    state-and-exception monad over a [machine]: the fields of the object, the
    trace of calls made on external collaborators, the store of callback
    handler objects and the state of the clients themselves.

    What lives outside [pubcontrol.py] is taken as follows.
    - The clients ([PubControlClient], [ZmqPubControlClient]) are values that
      record their constructor arguments; what their methods do is given by
      the environment [Env], and each of them may raise.
    - Socket, context and monitor constructors and the item's [export] are
      calls that return normally; they are recorded in the trace.
    - [PubControlClientCallbackHandler] and [ZmqSubMonitor] are modelled from
      the specification, in the modules [Handler] and [Monitor]. *)

From Stdlib Require Import ZArith String List Bool Lia Permutation.
From stdpp Require Import base option list gmap strings.

Local Open Scope string_scope.
Local Open Scope list_scope.

(** ** Python values found in a configuration entry *)

Inductive pyval : Type :=
| PyNone
| PyBool (b : bool)
| PyInt (n : Z)
| PyStr (s : string).

#[global] Instance pyval_eq_dec : EqDecision pyval.
Proof. solve_decision. Defined.

(** [bool(v)] *)
Definition truthy (v : pyval) : bool :=
  match v with
  | PyNone => false
  | PyBool b => b
  | PyInt n => negb (n =? 0)%Z
  | PyStr s => negb (String.eqb s "")
  end.

(** [v is False] *)
Definition is_False (v : pyval) : bool :=
  match v with PyBool false => true | _ => false end.

(** [v is None] *)
Definition is_None (v : pyval) : bool :=
  match v with PyNone => true | _ => false end.

(** A configuration entry is a dict with string keys. *)
Abbreviation entry := (gmap string pyval).

(** [entry.get(k)] *)
Definition dict_get (e : entry) (k : string) : pyval := default PyNone (e !! k).

(** [k in entry] *)
Definition dict_in (k : string) (e : entry) : bool := bool_decide (is_Some (e !! k)).

(** [apply_config] takes one dict or a list of dicts. *)
Inductive config : Type :=
| ConfigDict (e : entry)
| ConfigList (l : list entry).

(** [bool(config)] for the [if config:] of the constructor. *)
Definition config_truthy (c : config) : bool :=
  match c with
  | ConfigDict e => negb (bool_decide (e = ∅))
  | ConfigList l => negb (bool_decide (l = []))
  end.

(** ** Exceptions *)

Inductive exn : Type :=
| ValueError (msg : string)
| KeyError (key : string)
| AttributeError (msg : string)
| NameError (name : string)
| RuntimeError (msg : string)
| ClientError (msg : string).

(** A call returns, raises, or never returns (it waits for a lock that is
    held). *)
Inductive outcome (A : Type) : Type :=
| Ret (a : A)
| Raise (e : exn)
| Blocked.
Arguments Ret {A} a.
Arguments Raise {A} e.
Arguments Blocked {A}.

(** ** Clients *)

Inductive zmq_context : Type :=
| GlobalContext
| UserContext (id : nat).

(** A client object, by the constructor call (and [set_auth_jwt] call) that
    made it.  [auth_jwt] holds the issuer and the key. *)
Inductive client : Type :=
| PubControlClient (uri : pyval) (auth_jwt : option (pyval * pyval))
| ZmqPubControlClient (uri push_uri pub_uri require_subscribers : pyval)
    (disable_pub : bool) (sub_callback : option nat)
    (context : option zmq_context).

#[global] Instance zmq_context_eq_dec : EqDecision zmq_context.
Proof. solve_decision. Defined.

#[global] Instance client_eq_dec : EqDecision client.
Proof. solve_decision. Defined.

(** [isinstance(client, PubControlClient)] *)
Definition is_PubControlClient (c : client) : bool :=
  match c with PubControlClient _ _ => true | _ => false end.

(** [isinstance(client, ZmqPubControlClient)] *)
Definition is_ZmqPubControlClient (c : client) : bool :=
  match c with ZmqPubControlClient _ _ _ _ _ _ _ => true | _ => false end.

Inductive sub_event : Type := sub | unsub.

(** ** The environment: everything the module imports or is handed *)

Record Env : Type := {
  item : Type;
  content : Type;
  world : Type;
  (** the module-level [zmq] and [tnetstring]: [false] when the import failed *)
  zmq : bool;
  tnetstring : bool;
  _ensure_utf8 : string -> string;
  export : item -> bool -> bool -> content;
  dumps : content -> string;
  (** [client.publish(channel, item, blocking, callback)]: the exception it
      raises, if any, and the clients' next state *)
  client_publish :
    client -> string -> item -> bool -> option nat -> world -> option exn * world;
  client_finish : client -> world -> option exn * world;
  client_close : client -> world -> option exn * world;
}.

(** ** The callback fan-in handler *)

Module Handler.

(** Modelled from the spec: the class [PubControlClientCallbackHandler] of
    the module [pcccbhandler], which is not among the sources.  It is made
    from an expected number of completions and a consumer callback; it keeps
    a completion counter that starts at 0, a success flag that starts true
    and the first error message seen, which starts empty. *)
Record t : Type := {
  num_calls : nat;
  callback : nat;
  counter : nat;
  success : bool;
  first_error_message : string;
}.

Definition new (n : nat) (cb : nat) : t :=
  {| num_calls := n; callback := cb; counter := 0; success := true;
     first_error_message := "" |}.

(** Modelled from the spec: one completion report.  The counter is
    incremented; a failure while the flag is still true clears the flag and
    records the message; when the counter reaches the expected number the
    consumer callback is to be invoked with the flag and the message, and
    the state is discarded ([None]). *)
Definition handler (h : t) (ok : bool) (message : string)
  : option t * option (bool * string) :=
  let n := S (counter h) in
  let failed_first := negb ok && success h in
  let s := if failed_first then false else success h in
  let msg := if failed_first then message else first_error_message h in
  if Nat.eqb n (num_calls h) then (None, Some (s, msg))
  else (Some {| num_calls := num_calls h; callback := callback h;
                counter := n; success := s; first_error_message := msg |},
        None).

(** The message of the first failed completion of a list of completions in
    their order of arrival; empty when none failed. *)
Fixpoint first_error (arrivals : list (bool * string)) : string :=
  match arrivals with
  | [] => ""
  | (ok, message) :: rest => if ok then first_error rest else message
  end.

(** The state of a handler that has taken a list of completions without
    reaching its expected number. *)
Definition absorb (h : t) (arrivals : list (bool * string)) : t :=
  {| num_calls := num_calls h; callback := callback h;
     counter := counter h + length arrivals;
     success := success h && forallb fst arrivals;
     first_error_message :=
       if success h && negb (forallb fst arrivals)
       then first_error arrivals else first_error_message h |}.

End Handler.

(** ** The subscription monitor of the shared socket *)

Module Monitor.

(** Modelled from the spec: the class [ZmqSubMonitor] of the module
    [zmqsubmonitor], which is not among the sources.  It is made from a
    socket, a lock and a callback, and holds the set of channels it
    believes subscribed. *)
Record t : Type := {
  socket : nat;
  callback : nat;
  subscriptions : list string;
}.

Definition new (s : nat) (cb : nat) : t :=
  {| socket := s; callback := cb; subscriptions := [] |}.

Definition add (chan : string) (m : t) : t :=
  {| socket := socket m; callback := callback m;
     subscriptions := chan :: subscriptions m |}.

Definition remove (chan : string) (m : t) : t :=
  {| socket := socket m; callback := callback m;
     subscriptions := filter (λ c, c ≠ chan) (subscriptions m) |}.

End Monitor.

Section PubControl.

Context (E : Env).

(** ** Calls made on the outside, in the order they happen *)

Inductive event : Type :=
| EvAcquire
| EvRelease
| EvSocket (s : nat)
| EvLinger (s : nat) (v : Z)
| EvMonitor (s : nat) (cb : nat)
| EvConnect (s : nat) (uri : pyval)
| EvSend (s : nat) (parts : list string)
| EvSockClose (s : nat)
| EvNewClient (c : client)
| EvSetAuthJwt (c : client) (iss key : pyval)
| EvPublish (c : client) (channel : string) (it : item E) (blocking : bool)
    (cb : option nat)
| EvFinish (c : client)
| EvClose (c : client)
| EvNewHandler (h : nat) (n : nat) (cb : nat)
| EvCallback (cb : nat) (ok : bool) (message : string)
| EvSubCallback (cb : nat) (ev : sub_event) (chan : string).

(** ** The object and the machine around it *)

Record PubControl : Type := {
  _lock : bool;
  _sub_callback : option nat;
  _zmq_sub_monitor : option Monitor.t;
  _zmq_sock : option nat;
  _zmq_ctx : option zmq_context;
  clients : list client;
}.

Record machine : Type := {
  self : PubControl;
  trace : list event;
  next_socket : nat;
  handlers : list (option Handler.t);
  ext : world E;
}.

Definition with_self (f : PubControl -> PubControl) (m : machine) : machine :=
  {| self := f (self m); trace := trace m; next_socket := next_socket m;
     handlers := handlers m; ext := ext m |}.

Definition set_lock (b : bool) (p : PubControl) : PubControl :=
  {| _lock := b; _sub_callback := _sub_callback p;
     _zmq_sub_monitor := _zmq_sub_monitor p; _zmq_sock := _zmq_sock p;
     _zmq_ctx := _zmq_ctx p; clients := clients p |}.

Definition set_monitor (o : option Monitor.t) (p : PubControl) : PubControl :=
  {| _lock := _lock p; _sub_callback := _sub_callback p;
     _zmq_sub_monitor := o; _zmq_sock := _zmq_sock p;
     _zmq_ctx := _zmq_ctx p; clients := clients p |}.

Definition set_sock (o : option nat) (p : PubControl) : PubControl :=
  {| _lock := _lock p; _sub_callback := _sub_callback p;
     _zmq_sub_monitor := _zmq_sub_monitor p; _zmq_sock := o;
     _zmq_ctx := _zmq_ctx p; clients := clients p |}.

Definition set_clients (l : list client) (p : PubControl) : PubControl :=
  {| _lock := _lock p; _sub_callback := _sub_callback p;
     _zmq_sub_monitor := _zmq_sub_monitor p; _zmq_sock := _zmq_sock p;
     _zmq_ctx := _zmq_ctx p; clients := l |}.

(** ** The monad of method bodies *)

Definition M (A : Type) : Type := machine -> outcome A * machine.

Definition ret {A} (a : A) : M A := λ m, (Ret a, m).

Definition bind {A B} (c : M A) (k : A -> M B) : M B :=
  λ m, match c m with
       | (Ret a, m') => k a m'
       | (Raise e, m') => (Raise e, m')
       | (Blocked, m') => (Blocked, m')
       end.

Declare Scope pub_scope.
Delimit Scope pub_scope with pub.
Notation "x ← y ; z" := (bind y (λ x, z))
  (at level 20, y at level 100, z at level 200, only parsing) : pub_scope.
Notation "x ;; z" := (bind x (λ _, z))
  (at level 100, z at level 200, only parsing, right associativity) : pub_scope.
Local Open Scope pub_scope.

Definition raise {A} (e : exn) : M A := λ m, (Raise e, m).

Definition gets {A} (f : PubControl -> A) : M A := λ m, (Ret (f (self m)), m).

Definition modify (f : PubControl -> PubControl) : M unit :=
  λ m, (Ret tt, with_self f m).

Definition emit (ev : event) : M unit :=
  λ m, (Ret tt, {| self := self m; trace := trace m ++ [ev];
                   next_socket := next_socket m; handlers := handlers m;
                   ext := ext m |}).

(** [for x in l: body(x)] *)
Fixpoint for_each {A} (l : list A) (body : A -> M unit) : M unit :=
  match l with
  | [] => ret tt
  | x :: l' => body x;; for_each l' body
  end.

(** [self._lock.acquire()]: waits for ever when the lock is held. *)
Definition acquire : M unit :=
  λ m, if _lock (self m) then (Blocked, m)
       else (modify (set_lock true);; emit EvAcquire) m.

(** [self._lock.release()] *)
Definition release : M unit :=
  λ m, if _lock (self m) then (modify (set_lock false);; emit EvRelease) m
       else (Raise (RuntimeError "release unlocked lock"), m).

(** [entry[k]] *)
Definition getitem (e : entry) (k : string) : M pyval :=
  match e !! k with
  | Some v => ret v
  | None => raise (KeyError k)
  end.

(** A call of a client method: recorded, then the environment decides. *)
Definition call_client (ev : event) (f : world E -> option exn * world E) : M unit :=
  λ m, let '(r, w) := f (ext m) in
       let m' := {| self := self m; trace := trace m ++ [ev];
                    next_socket := next_socket m; handlers := handlers m;
                    ext := w |} in
       (match r with None => Ret tt | Some e => Raise e end, m').

(** [self._zmq_ctx.socket(zmq.XPUB)] *)
Definition new_socket : M nat :=
  ctx ← gets _zmq_ctx;
  match ctx with
  | None => raise (AttributeError "socket")
  | Some _ =>
      if zmq E then
        λ m, (Ret (next_socket m),
              {| self := self m; trace := trace m ++ [EvSocket (next_socket m)];
                 next_socket := S (next_socket m); handlers := handlers m;
                 ext := ext m |})
      else raise (AttributeError "XPUB")
  end.

(** [PubControlClientCallbackHandler(n, callback)]: a new object in the
    store; the result is its address. *)
Definition new_handler (n : nat) (cb : nat) : M nat :=
  λ m, let h := length (handlers m) in
       (Ret h,
        {| self := self m; trace := trace m ++ [EvNewHandler h n cb];
           next_socket := next_socket m;
           handlers := handlers m ++ [Some (Handler.new n cb)];
           ext := ext m |}).

(** ** The methods of [PubControl] *)

(** [_connect_zmq_pub_uri] *)
Definition _connect_zmq_pub_uri (uri : pyval) : M unit :=
  acquire;;
  sock ← gets _zmq_sock;
  (match sock with
   | None =>
       s ← new_socket;
       modify (set_sock (Some s));;
       emit (EvLinger s 0);;
       cb ← gets _sub_callback;
       match cb with
       | Some f =>
           emit (EvMonitor s f);;
           modify (set_monitor (Some (Monitor.new s f)))
       | None => ret tt
       end
   | Some _ => ret tt
   end);;
  sock ← gets _zmq_sock;
  (match sock with
   | Some s => emit (EvConnect s uri)
   | None => raise (AttributeError "connect")
   end);;
  release.

(** [_send_to_zmq] *)
Definition _send_to_zmq (channel : string) (it : item E) : M unit :=
  acquire;;
  sock ← gets _zmq_sock;
  (match sock with
   | Some s =>
       let channel := _ensure_utf8 E channel in
       let content := export E it true true in
       if tnetstring E then emit (EvSend s [channel; dumps E content])
       else raise (AttributeError "dumps")
   | None => ret tt
   end);;
  release.

(** [_submonitor_callback]: the definition has no [self] parameter, so the
    first statement of its body, [self._lock.acquire()], finds no such name. *)
Definition _submonitor_callback (eventType : sub_event) (chan : string) : M unit :=
  raise (NameError "self").

(** [remove_all_clients] *)
Definition remove_all_clients : M unit :=
  cs ← gets clients;
  for_each cs (λ c,
    if negb (is_PubControlClient c)
    then call_client (EvClose c) (client_close E c)
    else ret tt);;
  modify (set_clients []);;
  sock ← gets _zmq_sock;
  match sock with
  | Some s =>
      acquire;;
      emit (EvSockClose s);;
      modify (set_sock None);;
      release
  | None => ret tt
  end.

(** [add_client] *)
Definition add_client (c : client) : M unit :=
  modify (λ p, set_clients (clients p ++ [c]) p).

(** The condition tested by the validation loop of [apply_config]. *)
Definition rejected (e : entry) : bool :=
  is_False (dict_get e "zmq_require_subscribers")
  && negb (dict_in "zmq_pub_uri" e).

Definition zmq_pub_uri_error : exn :=
  ValueError "zmq_pub_uri must be set if require_subscriptions is set to true".

(** The validation loop of [apply_config], for one entry. *)
Definition validate_entry (e : entry) : M unit :=
  if rejected e then raise zmq_pub_uri_error else ret tt.

(** The test of the [if] that guards the construction of a bus client. *)
Definition has_bus_uri (e : entry) : bool :=
  dict_in "zmq_uri" e || dict_in "zmq_push_uri" e || dict_in "zmq_pub_uri" e.

(** The construction loop of [apply_config], first [if] of its body: the
    direct-publish client of an entry that has a [uri]. *)
Definition direct_client (e : entry) : M (option client) :=
  if dict_in "uri" e then
    uri ← getitem e "uri";
    emit (EvNewClient (PubControlClient uri None));;
    if dict_in "iss" e then
      iss ← getitem e "iss";
      key ← getitem e "key";
      emit (EvSetAuthJwt (PubControlClient uri None) iss key);;
      ret (Some (PubControlClient uri (Some (iss, key))))
    else ret (Some (PubControlClient uri None))
  else ret None.

(** The value given to the [require_subscribers] parameter of the bus client. *)
Definition effective_require_subscribers (e : entry) : pyval :=
  let require_subscribers := dict_get e "zmq_require_subscribers" in
  if is_None require_subscribers then PyBool false else require_subscribers.

(** Second [if] of the body: the bus-publish client of an entry that has a
    bus URI.  [current] is the variable [client] as the first [if] left it,
    and the result is that variable after the second. *)
Definition bus_client (e : entry) (current : option client) : M (option client) :=
  if has_bus_uri e then
    if negb (zmq E) then raise (ValueError "zmq package must be installed")
    else if negb (tnetstring E)
    then raise (ValueError "tnetstring package must be installed")
    else
      let require_subscribers := effective_require_subscribers e in
      ctx ← gets _zmq_ctx;
      let c := ZmqPubControlClient (dict_get e "zmq_uri")
                 (dict_get e "zmq_push_uri") (dict_get e "zmq_pub_uri")
                 require_subscribers true None ctx in
      emit (EvNewClient c);;
      (if dict_in "zmq_pub_uri" e
          && (truthy require_subscribers || negb (dict_in "zmq_push_uri" e))
       then uri ← getitem e "zmq_pub_uri"; _connect_zmq_pub_uri uri
       else ret tt);;
      ret (Some c)
  else ret current.

(** The construction loop of [apply_config], for one entry. *)
Definition construct_entry (e : entry) : M unit :=
  client ← direct_client e;
  client ← bus_client e client;
  match client with
  | Some c => modify (λ p, set_clients (clients p ++ [c]) p)
  | None => ret tt
  end.

(** [if not isinstance(config, list): config = [config]] *)
Definition as_list (cfg : config) : list entry :=
  match cfg with ConfigDict e => [e] | ConfigList l => l end.

(** [apply_config] *)
Definition apply_config (cfg : config) : M unit :=
  let config := as_list cfg in
  for_each config validate_entry;;
  for_each config construct_entry.

(** [publish] *)
Definition publish (channel : string) (it : item E) (blocking : bool)
    (callback : option nat) : M unit :=
  _send_to_zmq channel it;;
  if blocking then
    cs ← gets clients;
    for_each cs (λ c,
      call_client (EvPublish c channel it true None)
        (client_publish E c channel it true None))
  else
    cb ← match callback with
         | Some f =>
             cs ← gets clients;
             h ← new_handler (length cs) f;
             ret (Some h)
         | None => ret None
         end;
    cs ← gets clients;
    for_each cs (λ c,
      call_client (EvPublish c channel it false cb)
        (client_publish E c channel it false cb)).

(** [finish] *)
Definition finish : M unit :=
  cs ← gets clients;
  for_each cs (λ c,
    if negb (is_ZmqPubControlClient c)
    then call_client (EvFinish c) (client_finish E c)
    else ret tt).

(** [__init__] *)
Definition __init__ (cfg : option config) (sub_callback : option nat)
    (zmq_context : option zmq_context) (w : world E) : outcome unit * machine :=
  let ctx := match zmq_context with
             | Some c => Some c
             | None => if zmq E then Some GlobalContext else None
             end in
  let m := {| self := {| _lock := false; _sub_callback := sub_callback;
                         _zmq_sub_monitor := None; _zmq_sock := None;
                         _zmq_ctx := ctx; clients := [] |};
              trace := []; next_socket := 0; handlers := []; ext := w |} in
  match cfg with
  | Some c => if config_truthy c then apply_config c m else (Ret tt, m)
  | None => (Ret tt, m)
  end.

(** ** Calls that reach the object from other threads *)

(** A client reports the completion of an asynchronous publish by calling the
    callback it was given, the [handler] method of the object at address [h].
    A report to a discarded handler is dropped. *)
Definition report (h : nat) (ok : bool) (message : string) : M unit :=
  λ m, match handlers m !! h with
       | Some (Some obj) =>
           let '(obj', call) := Handler.handler obj ok message in
           let m' := {| self := self m; trace := trace m;
                        next_socket := next_socket m;
                        handlers := <[h := obj']> (handlers m);
                        ext := ext m |} in
           match call with
           | Some (s, msg) => emit (EvCallback (Handler.callback obj) s msg) m'
           | None => (Ret tt, m')
           end
       | _ => (Ret tt, m)
       end.

(** Modelled from the spec: the monitor of the shared socket sees a raw
    subscribe or unsubscribe edge.  It invokes the callback it was made with
    once per edge: before adding the channel to its set on [sub], after
    removing the channel from its set on [unsub]. *)
Definition monitor_event (ev : sub_event) (chan : string) : M unit :=
  mon ← gets _zmq_sub_monitor;
  match mon with
  | None => ret tt
  | Some mo =>
      match ev with
      | sub =>
          emit (EvSubCallback (Monitor.callback mo) sub chan);;
          modify (set_monitor (Some (Monitor.add chan mo)))
      | unsub =>
          modify (set_monitor (Some (Monitor.remove chan mo)));;
          emit (EvSubCallback (Monitor.callback mo) unsub chan)
      end
  end.

(** ** Lifetimes: sequences of calls on one object *)

Inductive call : Type :=
| CallApplyConfig (cfg : config)
| CallAddClient (c : client)
| CallRemoveAllClients
| CallPublish (channel : string) (it : item E) (blocking : bool)
    (callback : option nat)
| CallFinish
| CallConnectZmqPubUri (uri : pyval)
| CallReport (h : nat) (ok : bool) (message : string)
| CallMonitorEvent (ev : sub_event) (chan : string).

Definition run_call (c : call) : M unit :=
  match c with
  | CallApplyConfig cfg => apply_config cfg
  | CallAddClient c => add_client c
  | CallRemoveAllClients => remove_all_clients
  | CallPublish channel it blocking callback => publish channel it blocking callback
  | CallFinish => finish
  | CallConnectZmqPubUri uri => _connect_zmq_pub_uri uri
  | CallReport h ok message => report h ok message
  | CallMonitorEvent ev chan => monitor_event ev chan
  end.

(** [_connect_zmq_pub_uri] is internal: a consumer does not call it. *)
Definition public (c : call) : bool :=
  match c with CallConnectZmqPubUri _ => false | _ => true end.

(** The calls are made one after the other; a call that raises leaves the
    object as it is at that point, and nothing follows a call that never
    returns. *)
Fixpoint run_calls (cs : list call) (m : machine) : machine :=
  match cs with
  | [] => m
  | c :: cs' =>
      match run_call c m with
      | (Blocked, m') => m'
      | (_, m') => run_calls cs' m'
      end
  end.

(** The machines a consumer can bring about through the public methods. *)
Inductive api_reachable : machine -> Prop :=
| reach_init cfg cb ctx w m :
    __init__ cfg cb ctx w = (Ret tt, m) -> api_reachable m
| reach_call c m o m' :
    api_reachable m -> public c = true -> run_call c m = (o, m') ->
    api_reachable m'.

(** ** Reading a trace *)

Definition created (tr : list event) : list nat :=
  omap (λ ev, match ev with EvSocket s => Some s | _ => None end) tr.

Definition closed (tr : list event) : list nat :=
  omap (λ ev, match ev with EvSockClose s => Some s | _ => None end) tr.

(** The events of a publish call that are about clients. *)
Definition client_event (ev : event) : bool :=
  match ev with
  | EvPublish _ _ _ _ _ | EvNewHandler _ _ _ => true
  | _ => false
  end.

(** What [_send_to_zmq] does on the outside when the shared socket is [sock]. *)
Definition bus_events (sock : option nat) (channel : string) (it : item E)
  : list event :=
  EvAcquire
    :: match sock with
       | Some s =>
           [EvSend s [_ensure_utf8 E channel; dumps E (export E it true true)]]
       | None => []
       end
    ++ [EvRelease].

Fixpoint count_remove_all (cs : list call) : nat :=
  match cs with
  | [] => 0
  | CallRemoveAllClients :: cs' => S (count_remove_all cs')
  | _ :: cs' => count_remove_all cs'
  end.

(** The completions of a list of reports, fed to the handler at [h] in the
    order of the list. *)
Definition run_reports (h : nat) (arrivals : list (bool * string))
    (m : machine) : machine :=
  fold_left (λ m r, snd (report h r.1 r.2 m)) arrivals m.

(** The calls of [client.publish(channel, item, blocking=True)] on the clients
    of a list, in order, all return: they take the clients from [w] to [w']. *)
Inductive all_return (channel : string) (it : item E)
  : list client -> world E -> world E -> Prop :=
| all_return_nil w : all_return channel it [] w w
| all_return_cons c cs w w1 w' :
    client_publish E c channel it true None w = (None, w1) ->
    all_return channel it cs w1 w' ->
    all_return channel it (c :: cs) w w'.

(** The machine is at rest: no thread holds the lock, and what the shared
    socket needs is there (a context when [zmq] was imported, [tnetstring]
    when there is a socket to send on). *)
Definition ready (m : machine) : Prop :=
  _lock (self m) = false
  ∧ (zmq E = true -> is_Some (_zmq_ctx (self m)))
  ∧ (is_Some (_zmq_sock (self m)) -> tnetstring E = true).

(** What the lifetime of the shared socket depends on: the socket held, the
    context, the next socket to be made, and the sockets made and closed so
    far. *)
Definition view (m : machine)
  : option nat * option zmq_context * nat * list nat * list nat :=
  (_zmq_sock (self m), _zmq_ctx (self m), next_socket m,
   created (trace m), closed (trace m)).

(** The same with the state of the lock. *)
Definition full_view (m : machine) :=
  (view m, _lock (self m)).

(** A computation leaves a projection of the machine as it was, whatever
    its outcome. *)
Definition fixes {V A} (π : machine -> V) (c : M A) : Prop :=
  ∀ m o m', c m = (o, m') -> π m' = π m.

(** A computation keeps an invariant, whatever its outcome. *)
Definition preserves {A} (I : machine -> Prop) (c : M A) : Prop :=
  ∀ m o m', I m -> c m = (o, m') -> I m'.

(** Between [m] and [m'] at most one socket was made, and only if [m] held
    none. *)
Definition opens (m m' : machine) : Prop :=
  view m' = view m
  ∨ (_zmq_sock (self m) = None
     ∧ view m' = (Some (next_socket m), _zmq_ctx (self m), S (next_socket m),
                  created (trace m) ++ [next_socket m], closed (trace m))).

(** Between [m] and [m'] at most the socket held by [m] was closed. *)
Definition closes (m m' : machine) : Prop :=
  view m' = view m
  ∨ (∃ s, _zmq_sock (self m) = Some s
          ∧ view m' = (None, _zmq_ctx (self m), next_socket m,
                       created (trace m), closed (trace m) ++ [s])).

(** The sockets made are distinct, older than the next one, and are those
    closed together with the one held. *)
Definition sock_inv (m : machine) : Prop :=
  NoDup (created (trace m))
  ∧ Forall (λ s, s < next_socket m) (created (trace m))
  ∧ created (trace m) ≡ₚ closed (trace m) ++ option_list (_zmq_sock (self m)).

(** The machine after a call that only added [evs] to the trace and led the
    clients to [w]. *)
Definition advance (m : machine) (evs : list event) (w : world E) : machine :=
  {| self := self m; trace := trace m ++ evs; next_socket := next_socket m;
     handlers := handlers m; ext := w |}.

(** An event that is neither the making nor the closing of a socket. *)
Definition plain (ev : event) : Prop := created [ev] = [] ∧ closed [ev] = [].

(** The aggregate subscribed state of a channel: it is in the set of the
    object's own monitor or in the set of the monitor of some registered
    client.  [client_subscriptions c] is the set of the monitor of [c], [None]
    when [c] has no monitor. *)
Definition aggregate_subscribed
    (client_subscriptions : client -> option (list string))
    (p : PubControl) (chan : string) : bool :=
  match _zmq_sub_monitor p with
  | Some mo => bool_decide (chan ∈ Monitor.subscriptions mo)
  | None => false
  end
  || existsb (λ c, match client_subscriptions c with
                   | Some l => bool_decide (chan ∈ l)
                   | None => false
                   end) (clients p).

(** ** More ways to read a run *)

(** The calls [f c] on the clients of a list, in order, all return: they take
    the clients from [w] to [w']. *)
Inductive calls_return (f : client -> world E -> option exn * world E)
  : list client -> world E -> world E -> Prop :=
| calls_return_nil w : calls_return f [] w w
| calls_return_cons c cs w w1 w' :
    f c w = (None, w1) ->
    calls_return f cs w1 w' ->
    calls_return f (c :: cs) w w'.

(** The test of the [if] that guards the call of [_connect_zmq_pub_uri] in
    [apply_config]. *)
Definition connects_shared_socket (e : entry) : bool :=
  dict_in "zmq_pub_uri" e
  && (truthy (effective_require_subscribers e)
      || negb (dict_in "zmq_push_uri" e)).

(** The connections made on sockets, in order. *)
Definition connections (tr : list event) : list (nat * pyval) :=
  omap (λ ev, match ev with EvConnect s uri => Some (s, uri) | _ => None end) tr.

(** An event that is neither about the lock nor about the shared socket. *)
Definition outside (ev : event) : bool :=
  match ev with
  | EvAcquire | EvRelease | EvSocket _ | EvLinger _ _ | EvMonitor _ _
  | EvConnect _ _ | EvSend _ _ | EvSockClose _ => false
  | _ => true
  end.

(** Reading a trace from a state of the lock ([true] when held): the lock is
    taken only when free and released only when held, and the shared socket
    is made, set up, connected, sent on and closed only while the lock is
    held.  The result is the state of the lock at the end, [None] when the
    trace breaks the discipline. *)
Fixpoint lock_trace (held : bool) (tr : list event) : option bool :=
  match tr with
  | [] => Some held
  | ev :: tr' =>
      match ev with
      | EvAcquire => if held then None else lock_trace true tr'
      | EvRelease => if held then lock_trace false tr' else None
      | EvSocket _ | EvLinger _ _ | EvMonitor _ _ | EvConnect _ _
      | EvSend _ _ | EvSockClose _ =>
          if held then lock_trace true tr' else None
      | _ => lock_trace held tr'
      end
  end.

(** The trace of the machine keeps the discipline and ends in the state the
    lock is in. *)
Definition disciplined (m : machine) : Prop :=
  lock_trace false (trace m) = Some (_lock (self m)).

(** Between [m] and [m'] nothing happened to the lock, the shared socket, its
    monitor or the settings of the object: only clients, handlers and events
    outside the lock. *)
Definition quiet (m m' : machine) : Prop :=
  _lock (self m') = _lock (self m)
  ∧ _sub_callback (self m') = _sub_callback (self m)
  ∧ _zmq_sub_monitor (self m') = _zmq_sub_monitor (self m)
  ∧ _zmq_sock (self m') = _zmq_sock (self m)
  ∧ _zmq_ctx (self m') = _zmq_ctx (self m)
  ∧ next_socket m' = next_socket m
  ∧ ∃ evs, trace m' = trace m ++ evs ∧ forallb outside evs = true.

Definition quietly {A} (c : M A) : Prop :=
  ∀ m o m', c m = (o, m') -> quiet m m'.

(** A computation never waits for the lock. *)
Definition never_blocks {A} (c : M A) : Prop :=
  ∀ m o m', c m = (o, m') -> o ≠ Blocked.

(** From a machine at rest a computation comes back: it returns or raises. *)
Definition comes_back {A} (c : M A) : Prop :=
  ∀ m o m', ready m -> c m = (o, m') -> o ≠ Blocked.

(** The object is wired as its constructor left it: the subscription callback
    and the context are those of the constructor, and a monitor, when there
    is one, is bound to that callback. *)
Definition wired (cb : option nat) (ctx : option zmq_context) (m : machine)
  : Prop :=
  _sub_callback (self m) = cb
  ∧ _zmq_ctx (self m) = ctx
  ∧ ∀ mo, _zmq_sub_monitor (self m) = Some mo -> cb = Some (Monitor.callback mo).

End PubControl.

Arguments EvAcquire {E}.
Arguments EvRelease {E}.
Arguments EvSocket {E} s.
Arguments EvLinger {E} s v.
Arguments EvMonitor {E} s cb.
Arguments EvConnect {E} s uri.
Arguments EvSend {E} s parts.
Arguments EvSockClose {E} s.
Arguments EvNewClient {E} c.
Arguments EvSetAuthJwt {E} c iss key.
Arguments EvPublish {E} c channel it blocking cb.
Arguments EvFinish {E} c.
Arguments EvClose {E} c.
Arguments EvNewHandler {E} h n cb.
Arguments EvCallback {E} cb ok message.
Arguments EvSubCallback {E} cb ev chan.
Arguments CallApplyConfig {E} cfg.
Arguments CallAddClient {E} c.
Arguments CallRemoveAllClients {E}.
Arguments CallPublish {E} channel it blocking callback.
Arguments CallFinish {E}.
Arguments CallConnectZmqPubUri {E} uri.
Arguments CallReport {E} h ok message.
Arguments CallMonitorEvent {E} ev chan.
Arguments self {E} m.
Arguments trace {E} m.
Arguments next_socket {E} m.
Arguments handlers {E} m.
Arguments ext {E} m.
Arguments for_each {E A} l body m.
Arguments bind {E A B} c k m.
Arguments ret {E A} a m.
Arguments raise {E A} e m.
Arguments gets {E A} f m.
Arguments modify {E} f m.
Arguments emit {E} ev m.
Arguments acquire {E} m.
Arguments release {E} m.
Arguments getitem {E} e k m.
Arguments call_client {E} ev f m.
Arguments new_socket {E} m.
Arguments new_handler {E} n cb m.
Arguments _connect_zmq_pub_uri {E} uri m.
Arguments _send_to_zmq {E} channel it m.
Arguments _submonitor_callback {E} eventType chan m.
Arguments remove_all_clients {E} m.
Arguments add_client {E} c m.
Arguments validate_entry {E} e m.
Arguments direct_client {E} e m.
Arguments bus_client {E} e current m.
Arguments construct_entry {E} e m.
Arguments apply_config {E} cfg m.
Arguments publish {E} channel it blocking callback m.
Arguments finish {E} m.
Arguments report {E} h ok message m.
Arguments monitor_event {E} ev chan m.
Arguments run_call {E} c m.
Arguments run_calls {E} cs m.
Arguments run_reports {E} h arrivals m.
Arguments api_reachable {E} m.
Arguments all_return {E} channel it cs w w'.
Arguments created {E} tr.
Arguments closed {E} tr.
Arguments client_event {E} ev.
Arguments count_remove_all {E} cs.
Arguments public {E} c.
Arguments ready {E} m.
Arguments plain {E} ev.
Arguments view {E} m.
Arguments full_view {E} m.
Arguments fixes {E V A} π c.
Arguments preserves {E A} I c.
Arguments opens {E} m m'.
Arguments closes {E} m m'.
Arguments sock_inv {E} m.
Arguments with_self {E} f m.
Arguments calls_return {E} f cs w w'.
Arguments connections {E} tr.
Arguments outside {E} ev.
Arguments lock_trace {E} held tr.
Arguments disciplined {E} m.
Arguments quiet {E} m m'.
Arguments quietly {E A} c.
Arguments never_blocks {E A} c.
Arguments comes_back {E A} c.
Arguments wired {E} cb ctx m.
Arguments advance {E} m evs w.

(** ** A concrete environment and concrete configurations *)

Module Example.

(** Items and their exported form are strings, the clients have no state of
    their own, both packages are installed, and the one client that fails a
    publish is the direct client of the endpoint [https://down.example]. *)
Definition env : Env :=
  {| item := string; content := string; world := unit;
     zmq := true; tnetstring := true;
     _ensure_utf8 := λ s, s;
     export := λ it _ _, it;
     dumps := λ c, c;
     client_publish := λ c _ _ _ _ w,
       (match c with
        | PubControlClient (PyStr "https://down.example") _ =>
            Some (ClientError "timeout")
        | _ => None
        end, w);
     client_finish := λ _ w, (None, w);
     client_close := λ _ w, (None, w) |}.

(** The same without the [zmq] package. *)
Definition env_no_zmq : Env :=
  {| item := string; content := string; world := unit;
     zmq := false; tnetstring := true;
     _ensure_utf8 := λ s, s;
     export := λ it _ _, it;
     dumps := λ c, c;
     client_publish := λ _ _ _ _ _ w, (None, w);
     client_finish := λ _ w, (None, w);
     client_close := λ _ w, (None, w) |}.

Definition entry_a : entry := {[ "uri" := PyStr "https://a.example/pub" ]}.
Definition entry_b : entry := {[ "uri" := PyStr "https://b.example/pub" ]}.
Definition entry_down : entry := {[ "uri" := PyStr "https://down.example" ]}.

(** [{'uri': ..., 'iss': 'realm', 'key': 'k', 'zmq_uri': ...}] *)
Definition entry_both : entry :=
  {[ "uri" := PyStr "https://a.example/pub"; "iss" := PyStr "realm";
     "key" := PyStr "k"; "zmq_uri" := PyStr "tcp://bus:5563" ]}.

(** [{'zmq_uri': ...}] *)
Definition entry_bus : entry := {[ "zmq_uri" := PyStr "tcp://bus:5563" ]}.

(** [{'zmq_pub_uri': ...}] *)
Definition entry_pub : entry := {[ "zmq_pub_uri" := PyStr "tcp://bus:5562" ]}.

(** [{'zmq_uri': ..., 'zmq_require_subscribers': False}] *)
Definition entry_bus_false : entry :=
  {[ "zmq_uri" := PyStr "tcp://bus:5563";
     "zmq_require_subscribers" := PyBool false ]}.

Definition client_a : client := PubControlClient (PyStr "https://a.example/pub") None.
Definition client_b : client := PubControlClient (PyStr "https://b.example/pub") None.
Definition client_down : client := PubControlClient (PyStr "https://down.example") None.

(** A bus client added by hand; its own monitor holds the channel [c]. *)
Definition client_bus : client :=
  ZmqPubControlClient (PyStr "tcp://bus:5563") PyNone PyNone (PyBool true)
    false None (Some GlobalContext).

Definition client_bus_subscriptions (c : client) : option (list string) :=
  if decide (c = client_bus) then Some ["c"] else None.

(** [PubControl()] and [PubControl(sub_callback=f)] for the callback [7]. *)
Definition fresh : machine env := snd (__init__ env None None None tt).
Definition fresh_sub : machine env := snd (__init__ env None (Some 7) None tt).
Definition fresh_no_zmq : machine env_no_zmq :=
  snd (__init__ env_no_zmq None None None tt).

(** [PubControl([{'uri': a}, {'uri': b}])] *)
Definition two_clients : machine env :=
  snd (__init__ env (Some (ConfigList [entry_a; entry_b])) None None tt).

(** [PubControl([{'uri': a}, {'uri': down}, {'uri': b}])] *)
Definition three_clients : machine env :=
  snd (__init__ env (Some (ConfigList [entry_a; entry_down; entry_b]))
         None None tt).

(** [PubControl([{'zmq_pub_uri': ...}, {'uri': a}])]: the shared socket is
    made and connected. *)
Definition with_socket : machine env :=
  snd (__init__ env (Some (ConfigList [entry_pub; entry_a])) None None tt).

(** [p = PubControl(sub_callback=f); p.add_client(bus);
    p.apply_config({'zmq_pub_uri': ...})] *)
Definition two_monitors : machine env :=
  run_calls [CallAddClient client_bus; CallApplyConfig (ConfigDict entry_pub)]
    fresh_sub.

(** [apply_config], [remove_all_clients], [apply_config] with a pub URI. *)
Definition reconnect : list (call env) :=
  [CallApplyConfig (ConfigDict entry_pub); CallRemoveAllClients;
   CallApplyConfig (ConfigDict entry_pub)].

(** The clients of this environment fail outside [publish]: the direct
    client of [https://down.example] fails to finish and the bus client
    [client_bus] fails to close. *)
Definition env_failing : Env :=
  {| item := string; content := string; world := unit;
     zmq := true; tnetstring := true;
     _ensure_utf8 := λ s, s;
     export := λ it _ _, it;
     dumps := λ c, c;
     client_publish := λ _ _ _ _ _ w, (None, w);
     client_finish := λ c w,
       (if decide (c = client_down) then Some (ClientError "not drained")
        else None, w);
     client_close := λ c w,
       (if decide (c = client_bus) then Some (ClientError "close failed")
        else None, w) |}.

(** [p = PubControl()] followed by [p.add_client] of four clients. *)
Definition four_clients : machine env_failing :=
  run_calls [CallAddClient client_a; CallAddClient client_bus;
             CallAddClient client_down; CallAddClient client_b]
    (snd (__init__ env_failing None None None tt)).

(** [{'uri': ..., 'iss': 'realm'}]: an issuer and no key. *)
Definition entry_no_key : entry :=
  {[ "uri" := PyStr "https://a.example/pub"; "iss" := PyStr "realm" ]}.

End Example.

(** * Properties *)

Section Properties.
Context {E : Env}.
Implicit Types (m : machine E) (e : entry) (c : client).


Lemma bind_Ret {A B} (c : M E A) (k : A -> M E B) m a m1 :
  c m = (Ret a, m1) -> bind c k m = k a m1.
Proof. intros H. unfold bind. by rewrite H. Qed.

Lemma bind_Raise {A B} (c : M E A) (k : A -> M E B) m x m1 :
  c m = (Raise x, m1) -> bind c k m = (Raise x, m1).
Proof. intros H. unfold bind. by rewrite H. Qed.

Lemma bind_Blocked {A B} (c : M E A) (k : A -> M E B) m m1 :
  c m = (Blocked, m1) -> bind c k m = (Blocked, m1).
Proof. intros H. unfold bind. by rewrite H. Qed.

Lemma dict_in_true k e : dict_in k e = true <-> is_Some (e !! k).
Proof. unfold dict_in. by rewrite bool_decide_eq_true. Qed.

Lemma dict_in_false k e : dict_in k e = false <-> e !! k = None.
Proof. unfold dict_in. rewrite bool_decide_eq_false. by rewrite eq_None_not_Some. Qed.

Lemma getitem_Some e k v m : e !! k = Some v -> getitem e k m = (Ret v, m).
Proof. intros H. unfold getitem. by rewrite H. Qed.

Lemma for_each_app {A} (l1 l2 : list A) (body : A -> M E unit) m :
  for_each (l1 ++ l2) body m = bind (for_each l1 body) (λ _, for_each l2 body) m.
Proof.
  revert m. induction l1 as [|x l1 IH]; intros m; cbn.
  - reflexivity.
  - unfold bind. destruct (body x m) as [[[]| |] m1]; [|reflexivity..].
    rewrite IH. reflexivity.
Qed.

(** validation never changes the machine *)
Lemma validate_all_ok (l : list entry) m :
  Forall (λ e, rejected e = false) l -> for_each l validate_entry m = (Ret tt, m).
Proof.
  induction 1 as [|e l He _ IH]; cbn; [done|].
  unfold bind, validate_entry. rewrite He. cbn. done.
Qed.

Lemma validate_some_rejected (l : list entry) m :
  Exists (λ e, rejected e = true) l ->
  for_each l validate_entry m = (Raise zmq_pub_uri_error, m).
Proof.
  induction 1 as [e l He|e l _ IH]; cbn; unfold bind, validate_entry.
  - by rewrite He.
  - destruct (rejected e); cbn; [done|]. apply IH.
Qed.

Lemma apply_config_rejected (cfg : config) m e :
  e ∈ as_list cfg -> rejected e = true ->
  apply_config cfg m = (Raise zmq_pub_uri_error, m).
Proof.
  intros Hin Hrej. unfold apply_config.
  apply bind_Raise, validate_some_rejected, Exists_exists. by exists e.
Qed.

(** C5: when some entry of the configuration has [zmq_require_subscribers]
    set to [False] and no [zmq_pub_uri] key, [apply_config] raises the
    configuration error and leaves the machine exactly as it was: no client
    was constructed (the trace is unchanged) and none was registered, whatever
    the other entries are.  The validation loop runs over all entries before
    the construction loop starts. *)
Theorem apply_config_rejects_before_constructing (cfg : config) m e :
  e ∈ as_list cfg ->
  dict_get e "zmq_require_subscribers" = PyBool false ->
  e !! "zmq_pub_uri" = None ->
  apply_config cfg m = (Raise zmq_pub_uri_error, m).
Proof.
  intros Hin Hget Hpub. apply (apply_config_rejected cfg m e Hin).
  unfold rejected. rewrite Hget. cbn.
  apply dict_in_false in Hpub. by rewrite Hpub.
Qed.


Ltac run :=
  unfold _connect_zmq_pub_uri, _send_to_zmq, new_socket, new_handler, acquire,
    release, call_client, bind, gets, modify, emit, ret, raise, with_self in *;
  cbn in *.

Ltac crunch := run; repeat (case_match; simplify_eq/=); try done.

Lemma connect_frame uri m o m' :
  _connect_zmq_pub_uri uri m = (o, m') ->
  clients (self m') = clients (self m) ∧ _zmq_ctx (self m') = _zmq_ctx (self m)
  ∧ _sub_callback (self m') = _sub_callback (self m)
  ∧ handlers m' = handlers m ∧ ext m' = ext m.
Proof. intros H. crunch. Qed.

Lemma direct_client_result e m o m1 :
  direct_client e m = (o, m1) ->
  self m1 = self m ∧ handlers m1 = handlers m ∧ ext m1 = ext m
  ∧ ∀ r, o = Ret r ->
      r = match e !! "uri" with
          | Some uri =>
              Some (PubControlClient uri
                      (match e !! "iss" with
                       | Some iss => Some (iss, dict_get e "key")
                       | None => None
                       end))
          | None => None
          end.
Proof.
  unfold direct_client, getitem, dict_in, dict_get. intros H.
  destruct (e !! "uri") as [uri|] eqn:Huri, (e !! "iss") as [iss|] eqn:Hiss,
    (e !! "key") as [key|] eqn:Hkey; cbn in H; crunch;
    repeat split; intros; simplify_eq; try done.
Qed.

Ltac finish := crunch; repeat split; intros; simplify_eq/=; try done.

Lemma bus_client_result e cur m o m1 :
  bus_client e cur m = (o, m1) ->
  clients (self m1) = clients (self m) ∧ _zmq_ctx (self m1) = _zmq_ctx (self m)
  ∧ ∀ r, o = Ret r ->
      r = if has_bus_uri e
          then Some (ZmqPubControlClient (dict_get e "zmq_uri")
                       (dict_get e "zmq_push_uri") (dict_get e "zmq_pub_uri")
                       (effective_require_subscribers e) true None
                       (_zmq_ctx (self m)))
          else cur.
Proof.
  unfold bus_client. intros H.
  destruct (has_bus_uri e); [|by finish].
  destruct (zmq E); [|by finish]. destruct (tnetstring E); [|by finish].
  cbn in H. unfold bind at 1 2 in H. unfold gets, emit in H. cbn in H.
  match type of H with context [if ?b then _ else _] => destruct b end;
    [|by finish].
  unfold getitem in H.
  destruct (e !! "zmq_pub_uri") as [uri|]; [|by finish].
  unfold ret at 1 in H; cbn in H.
  match type of H with context [_connect_zmq_pub_uri ?u ?m0] =>
    destruct (_connect_zmq_pub_uri u m0) as [[[]| |] m2] eqn:Hc end;
    apply connect_frame in Hc; cbn in Hc; destruct Hc as (Hcl & Hctx & _);
    by finish.
Qed.

(** What one round of the construction loop does to the client list: a
    round that raises registers nothing. *)
Lemma construct_entry_clients e m o m' :
  construct_entry e m = (o, m') ->
  _zmq_ctx (self m') = _zmq_ctx (self m)
  ∧ clients (self m') =
      clients (self m)
      ++ match o with
         | Ret _ =>
             option_list
               (if has_bus_uri e
                then Some (ZmqPubControlClient (dict_get e "zmq_uri")
                             (dict_get e "zmq_push_uri")
                             (dict_get e "zmq_pub_uri")
                             (effective_require_subscribers e) true None
                             (_zmq_ctx (self m)))
                else match e !! "uri" with
                     | Some uri =>
                         Some (PubControlClient uri
                                 (match e !! "iss" with
                                  | Some iss => Some (iss, dict_get e "key")
                                  | None => None
                                  end))
                     | None => None
                     end)
         | _ => []
         end.
Proof.
  unfold construct_entry. intros H. unfold bind at 1 in H.
  destruct (direct_client e m) as [[r1| |] m1] eqn:H1;
    apply direct_client_result in H1 as (Hs1 & _ & _ & Hr1);
    [|simplify_eq; rewrite Hs1, app_nil_r; done..].
  unfold bind at 1 in H.
  destruct (bus_client e r1 m1) as [[r2| |] m2] eqn:H2;
    apply bus_client_result in H2 as (Hc2 & Hx2 & Hr2);
    rewrite Hs1 in *;
    [|simplify_eq; rewrite Hc2, app_nil_r; done..].
  rewrite (Hr2 _ eq_refl), (Hr1 _ eq_refl) in H. clear Hr1 Hr2.
  destruct (has_bus_uri e); [finish; by rewrite Hc2|].
  destruct (e !! "uri"); finish; by rewrite ?Hc2, ?app_nil_r.
Qed.

(** C3, as amended: one round of the construction loop registers exactly the
    last client it constructed.  An entry with a bus URI registers its
    bus-publish client and nothing else, also when it has a [uri] (the
    direct-publish client built from it is not registered); an entry without
    bus URI registers the direct-publish client of its [uri], with the issuer
    and key configured when [iss] is present; an entry with neither registers
    nothing. *)
Theorem construct_entry_registers_last e m m' :
  construct_entry e m = (Ret tt, m') ->
  (has_bus_uri e = true ->
   clients (self m') =
     clients (self m)
     ++ [ZmqPubControlClient (dict_get e "zmq_uri") (dict_get e "zmq_push_uri")
           (dict_get e "zmq_pub_uri")
           (effective_require_subscribers e) true None (_zmq_ctx (self m))])
  ∧ (has_bus_uri e = false -> ∀ uri, e !! "uri" = Some uri ->
     clients (self m') =
       clients (self m)
       ++ [PubControlClient uri
             (match e !! "iss" with
              | Some iss => Some (iss, dict_get e "key")
              | None => None
              end)])
  ∧ (has_bus_uri e = false -> e !! "uri" = None ->
     clients (self m') = clients (self m)).
Proof.
  intros H. apply construct_entry_clients in H as [_ H]. rewrite H. cbn.
  repeat split.
  - intros ->. done.
  - intros -> uri ->. done.
  - intros -> ->. by rewrite app_nil_r.
Qed.


(** C8: [apply_config] is not atomic across entries.  When validation passes
    and the construction loop raises at an entry [e] after the entries [pre]
    were processed, the call raises that error and the client list is the one
    the entries [pre] had built: what they registered stays registered. *)
Theorem apply_config_not_atomic (pre post : list entry) e m m1 x m2 :
  Forall (λ e, rejected e = false) (pre ++ e :: post) ->
  apply_config (ConfigList pre) m = (Ret tt, m1) ->
  construct_entry e m1 = (Raise x, m2) ->
  apply_config (ConfigList (pre ++ e :: post)) m = (Raise x, m2)
  ∧ clients (self m2) = clients (self m1).
Proof.
  intros Hv Hpre He. split.
  - unfold apply_config in *. cbn in *.
    rewrite (bind_Ret _ _ _ _ _ (validate_all_ok _ m Hv)).
    apply Forall_app in Hv as [Hv _].
    rewrite (bind_Ret _ _ _ _ _ (validate_all_ok _ m Hv)) in Hpre.
    rewrite for_each_app, (bind_Ret _ _ _ _ _ Hpre). cbn.
    by apply bind_Raise.
  - apply construct_entry_clients in He as [_ ->]. by rewrite app_nil_r.
Qed.

Lemma direct_client_returns e m :
  (is_Some (e !! "uri") -> is_Some (e !! "iss") -> is_Some (e !! "key")) ->
  ∃ r m1, direct_client e m = (Ret r, m1).
Proof.
  unfold direct_client, getitem, dict_in. intros Hkey.
  destruct (e !! "uri") as [uri|]; cbn; [|by eexists _, _].
  destruct (e !! "iss") as [iss|]; cbn; [|by eexists _, _].
  destruct (Hkey ltac:(done) ltac:(done)) as [key ->]. cbn. by eexists _, _.
Qed.

(** C10: validation rejects only the value [False].  An entry whose
    [zmq_require_subscribers] is missing (or [None]) and that has no
    [zmq_pub_uri] passes validation; if it has a bus URI, with both packages
    installed, [apply_config] returns and registers a bus-publish client whose
    [require_subscribers] is [False]; the same entry with an explicit [False]
    is rejected. *)
Theorem omitted_require_subscribers_accepted e m :
  dict_get e "zmq_require_subscribers" = PyNone ->
  e !! "zmq_pub_uri" = None ->
  is_Some (e !! "zmq_uri") ∨ is_Some (e !! "zmq_push_uri") ->
  zmq E = true -> tnetstring E = true ->
  (is_Some (e !! "uri") -> is_Some (e !! "iss") -> is_Some (e !! "key")) ->
  for_each (as_list (ConfigDict e)) validate_entry m = (Ret tt, m)
  ∧ (∃ m', apply_config (ConfigDict e) m = (Ret tt, m')
           ∧ clients (self m') =
               clients (self m)
               ++ [ZmqPubControlClient (dict_get e "zmq_uri")
                     (dict_get e "zmq_push_uri") PyNone (PyBool false) true
                     None (_zmq_ctx (self m))])
  ∧ apply_config (ConfigDict (<["zmq_require_subscribers" := PyBool false]> e)) m
    = (Raise zmq_pub_uri_error, m).
Proof.
  intros Hreq Hpub Hbus Hzmq Htnet Hkey.
  assert (Hok : rejected e = false) by (unfold rejected; by rewrite Hreq).
  assert (Hhas : has_bus_uri e = true).
  { unfold has_bus_uri. destruct Hbus as [H|H]; apply dict_in_true in H;
      rewrite H; by rewrite ?orb_true_r. }
  split; [|split].
  - apply validate_all_ok. by constructor.
  - unfold apply_config. cbn.
    rewrite (bind_Ret _ _ _ _ _ (validate_all_ok [e] m ltac:(by constructor))).
    destruct (direct_client_returns e m Hkey) as (r & m1 & H1).
    pose proof (direct_client_result _ _ _ _ H1) as (Hs & Hh & Hx & _).
    assert (Hb : ∃ m2, bus_client e r m1 = (Ret (Some (ZmqPubControlClient (dict_get e "zmq_uri")
                     (dict_get e "zmq_push_uri") PyNone (PyBool false) true
                     None (_zmq_ctx (self m)))), m2) ∧ clients (self m2) = clients (self m)).
    { unfold bus_client, effective_require_subscribers.
      rewrite Hhas, Hzmq, Htnet, Hreq. apply dict_in_false in Hpub as Hpub'.
      assert (Hgp : dict_get e "zmq_pub_uri" = PyNone)
        by (unfold dict_get; by rewrite Hpub).
      rewrite Hpub', Hgp. cbn.
      rewrite Hs. eexists. split; [done|]. done. }
    destruct Hb as (m2 & H2 & Hc2).
    eexists. split.
    + erewrite bind_Ret; [reflexivity|]. unfold construct_entry.
      rewrite (bind_Ret _ _ _ _ _ H1), (bind_Ret _ _ _ _ _ H2). reflexivity.
    + cbn. by rewrite Hc2.
  - apply (apply_config_rejected _ _
             (<["zmq_require_subscribers" := PyBool false]> e)).
    + cbn. by left.
    + unfold rejected, dict_get, dict_in. rewrite lookup_insert_eq. cbn.
      rewrite lookup_insert_ne by done. rewrite Hpub. by rewrite bool_decide_false by (by intros []).
Qed.

(** *** The bus send *)

Lemma send_to_zmq_free channel it m :
  _lock (self m) = false ->
  (is_Some (_zmq_sock (self m)) -> tnetstring E = true) ->
  _send_to_zmq channel it m
  = (Ret tt, advance m (bus_events E (_zmq_sock (self m)) channel it) (ext m)).
Proof.
  intros Hl Ht. unfold advance, bus_events.
  destruct m as [[lk scb mon sock ctx cl] tr ns hs w].
  cbn in *. subst. run.
  destruct sock; cbn; [rewrite Ht by done|]; cbn; by rewrite <-?app_assoc.
Qed.

Lemma send_to_zmq_ready channel it m :
  ready m ->
  _send_to_zmq channel it m
  = (Ret tt, advance m (bus_events E (_zmq_sock (self m)) channel it) (ext m)).
Proof. intros (Hl & _ & Ht). by apply send_to_zmq_free. Qed.

Lemma send_to_zmq_Ret channel it m m1 :
  _send_to_zmq channel it m = (Ret tt, m1) ->
  _lock (self m) = false
  ∧ m1 = advance m (bus_events E (_zmq_sock (self m)) channel it) (ext m).
Proof.
  unfold advance, bus_events.
  destruct m as [[lk scb mon sock ctx cl] tr ns hs w]. intros H.
  crunch; by rewrite <-?app_assoc.
Qed.

(** *** The loop over the clients *)

Section loop.
Context (channel : string) (it : item E) (blocking : bool) (cb : option nat).

Let body (c : client) : M E unit :=
  call_client (EvPublish c channel it blocking cb)
    (client_publish E c channel it blocking cb).

Let ev (c : client) : event E := EvPublish c channel it blocking cb.

(** Whatever the outcome, the loop has called a prefix of the list, in
    order, and touched nothing but the trace and the clients. *)
Lemma publish_loop_prefix cs m o m' :
  for_each cs body m = (o, m') ->
  ∃ k w', m' = advance m (ev <$> take k cs) w'
          ∧ (o = Ret tt -> k = length cs).
Proof.
  revert m. induction cs as [|c cs IH]; intros m H; cbn in H.
  - exists 0, (ext m). unfold ret in H. simplify_eq. split; [|done].
    unfold advance. cbn. rewrite app_nil_r. by destruct m'.
  - unfold bind, body, call_client in H.
    destruct (client_publish E c channel it blocking cb (ext m)) as [[x|] w].
    + exists 1, w. simplify_eq. split; [|done]. reflexivity.
    + apply IH in H as (k & w' & -> & Hk). exists (S k), w'.
      split; [|intros ?; cbn; f_equal; auto].
      unfold advance. cbn. by rewrite <-app_assoc.
Qed.

End loop.

Lemma blocking_loop_all_return channel it cs m w' :
  all_return channel it cs (ext m) w' ->
  for_each cs (λ c, call_client (EvPublish c channel it true None)
                      (client_publish E c channel it true None)) m
  = (Ret tt, advance m ((λ c, EvPublish c channel it true None) <$> cs) w').
Proof.
  remember (ext m) as w eqn:Hw. intros H. revert m Hw.
  induction H as [w|c cs w w1 w' Hc _ IH]; intros m ->; cbn.
  - unfold ret, advance. cbn. rewrite app_nil_r. by destruct m.
  - unfold bind, call_client. rewrite Hc. rewrite IH by done.
    unfold advance. cbn. by rewrite <-app_assoc.
Qed.

Lemma blocking_loop_raises channel it pre c post m w1 x w2 :
  all_return channel it pre (ext m) w1 ->
  client_publish E c channel it true None w1 = (Some x, w2) ->
  for_each (pre ++ c :: post)
    (λ c, call_client (EvPublish c channel it true None)
            (client_publish E c channel it true None)) m
  = (Raise x,
     advance m ((λ c, EvPublish c channel it true None) <$> (pre ++ [c])) w2).
Proof.
  intros Hpre Hc. rewrite for_each_app.
  rewrite (bind_Ret _ _ _ _ _ (blocking_loop_all_return _ _ _ _ _ Hpre)).
  cbn. unfold bind, call_client. cbn. rewrite Hc.
  unfold advance. cbn. by rewrite fmap_app, <-app_assoc.
Qed.

(** *** Projections left alone *)

Section solve_fixes.
Context {V : Type} (π : machine E -> V).

Lemma fixes_ret {A} (a : A) : fixes π (ret a).
Proof. intros m o m' H. unfold ret in H. by simplify_eq. Qed.

Lemma fixes_raise {A} x : fixes π (raise (A:=A) x).
Proof. intros m o m' H. unfold raise in H. by simplify_eq. Qed.

Lemma fixes_gets {A} (f : PubControl -> A) : fixes π (gets f).
Proof. intros m o m' H. unfold gets in H. by simplify_eq. Qed.

Lemma fixes_getitem e k : fixes π (getitem e k).
Proof. unfold getitem. destruct (e !! k); [apply fixes_ret|apply fixes_raise]. Qed.

Lemma fixes_bind {A B} (c : M E A) (k : A -> M E B) :
  fixes π c -> (∀ a, fixes π (k a)) -> fixes π (bind c k).
Proof.
  intros Hc Hk m o m' H. unfold bind in H.
  destruct (c m) as [[a| |] m1] eqn:H1; specialize (Hc _ _ _ H1);
    simplify_eq; [|done..].
  rewrite <-Hc. by eapply Hk.
Qed.

Lemma fixes_for_each {A} (l : list A) (body : A -> M E unit) :
  (∀ x, fixes π (body x)) -> fixes π (for_each l body).
Proof.
  intros Hb. induction l as [|x l IH]; cbn.
  - apply fixes_ret.
  - apply fixes_bind; auto.
Qed.

Lemma fixes_if {A} (b : bool) (c1 c2 : M E A) :
  fixes π c1 -> fixes π c2 -> fixes π (if b then c1 else c2).
Proof. by destruct b. Qed.

End solve_fixes.

Lemma created_app (l1 l2 : list (event E)) :
  created (l1 ++ l2) = created l1 ++ created l2.
Proof. apply omap_app. Qed.

Lemma closed_app (l1 l2 : list (event E)) :
  closed (l1 ++ l2) = closed l1 ++ closed l2.
Proof. apply omap_app. Qed.

Lemma full_view_plain m m' evs :
  self m' = self m -> next_socket m' = next_socket m ->
  trace m' = trace m ++ evs -> created evs = [] -> closed evs = [] ->
  full_view m' = full_view m.
Proof.
  intros Hs Hn Ht Hc Hd. unfold full_view, view.
  by rewrite Hs, Hn, Ht, created_app, closed_app, Hc, Hd, !app_nil_r.
Qed.

Lemma fixes_emit (ev : event E) : plain ev -> fixes full_view (emit ev).
Proof.
  intros [Hc Hd] m o m' H. unfold emit in H. simplify_eq.
  by eapply full_view_plain.
Qed.

Lemma fixes_call_client (ev : event E) f : plain ev -> fixes full_view (call_client ev f).
Proof.
  intros [Hc Hd] m o m' H. unfold call_client in H. destruct (f (ext m)) as [r w].
  simplify_eq. by eapply full_view_plain.
Qed.

Lemma fixes_new_handler n cb : fixes full_view (new_handler (E:=E) n cb).
Proof.
  intros m o m' H. unfold new_handler in H. simplify_eq.
  by eapply full_view_plain.
Qed.

Lemma fixes_set_clients (f : PubControl -> list client) :
  fixes full_view (modify (E:=E) (λ p, set_clients (f p) p)).
Proof. intros m o m' H. unfold modify in H. by simplify_eq. Qed.

Lemma fixes_set_monitor o : fixes full_view (modify (E:=E) (set_monitor o)).
Proof. intros m o' m' H. unfold modify in H. by simplify_eq. Qed.

Lemma fixes_view {A} (c : M E A) : fixes full_view c -> fixes view c.
Proof. intros Hc m o m' H. specialize (Hc _ _ _ H). unfold full_view in Hc. congruence. Qed.

Lemma view_plain m m' evs :
  _zmq_sock (self m') = _zmq_sock (self m) ->
  _zmq_ctx (self m') = _zmq_ctx (self m) ->
  next_socket m' = next_socket m ->
  trace m' = trace m ++ evs -> created evs = [] -> closed evs = [] ->
  view m' = view m.
Proof.
  intros Hs Hx Hn Ht Hc Hd. unfold view.
  by rewrite Hs, Hx, Hn, Ht, created_app, closed_app, Hc, Hd, !app_nil_r.
Qed.

Lemma fixes_acquire : fixes view (acquire (E:=E)).
Proof.
  intros m o m' H. unfold acquire in H. destruct (_lock (self m)); [by simplify_eq|].
  unfold bind, modify, emit in H. simplify_eq. by eapply view_plain.
Qed.

Lemma fixes_release : fixes view (release (E:=E)).
Proof.
  intros m o m' H. unfold release in H. destruct (_lock (self m)); [|by simplify_eq].
  unfold bind, modify, emit in H. simplify_eq. by eapply view_plain.
Qed.

Create HintDb solve_fixes.
#[local] Hint Resolve fixes_ret fixes_raise fixes_gets fixes_getitem fixes_new_handler
  fixes_set_clients fixes_set_monitor fixes_acquire fixes_release : solve_fixes.
#[local] Hint Extern 1 (plain _) => (split; reflexivity) : solve_fixes.
#[local] Hint Extern 2 (fixes _ (bind _ _)) => (apply fixes_bind; [|intros ?]) : solve_fixes.
#[local] Hint Extern 2 (fixes _ (for_each _ _)) => (apply fixes_for_each; intros ?) : solve_fixes.
#[local] Hint Extern 2 (fixes _ (if _ then _ else _)) => apply fixes_if : solve_fixes.
#[local] Hint Extern 2 (fixes _ (match ?x with _ => _ end)) => destruct x : solve_fixes.
#[local] Hint Extern 3 (fixes full_view (emit _)) => apply fixes_emit : solve_fixes.
#[local] Hint Extern 3 (fixes full_view (call_client _ _)) => apply fixes_call_client : solve_fixes.
#[local] Hint Extern 5 (fixes view _) => apply fixes_view : solve_fixes.

Ltac solve_fixes := eauto 20 with solve_fixes.

Lemma fixes_validate_entry e : fixes full_view (validate_entry (E:=E) e).
Proof. unfold validate_entry. solve_fixes. Qed.

Lemma fixes_direct_client e : fixes full_view (direct_client (E:=E) e).
Proof. unfold direct_client. solve_fixes. Qed.

Lemma fixes_add_client c : fixes full_view (add_client (E:=E) c).
Proof. unfold add_client. solve_fixes. Qed.

Lemma fixes_finish : fixes full_view (finish (E:=E)).
Proof. unfold finish. solve_fixes. Qed.

Lemma fixes_monitor_event ev chan : fixes full_view (monitor_event (E:=E) ev chan).
Proof. unfold monitor_event. solve_fixes. Qed.

Lemma fixes_report h ok message : fixes full_view (report (E:=E) h ok message).
Proof.
  intros m o m' H. unfold report in H.
  destruct (handlers m !! h) as [[obj|]|]; [|by simplify_eq..].
  destruct (Handler.handler obj ok message) as [obj' [[s msg]|]].
  - unfold emit in H. simplify_eq. by eapply full_view_plain.
  - by simplify_eq.
Qed.

Lemma fixes_send_to_zmq channel it : fixes view (_send_to_zmq (E:=E) channel it).
Proof. unfold _send_to_zmq. solve_fixes. Qed.

Lemma fixes_publish channel it blocking callback :
  fixes view (publish (E:=E) channel it blocking callback).
Proof. unfold publish. pose proof fixes_send_to_zmq. solve_fixes. Qed.

(** *** Making and closing the shared socket *)

Lemma opens_refl m : opens m m.
Proof. by left. Qed.

Lemma opens_fixes m m1 m2 : opens m m1 -> view m2 = view m1 -> opens m m2.
Proof. intros [H|[H0 H]] Hv; [left|right]; [|split; [done|]]; congruence. Qed.

Lemma fixes_opens m m1 m2 : view m1 = view m -> opens m1 m2 -> opens m m2.
Proof.
  unfold opens, view. intros Hv [H|[H0 H]]; [left; congruence|right].
  simplify_eq. split; congruence.
Qed.

Lemma opens_trans m m1 m2 : opens m m1 -> opens m1 m2 -> opens m m2.
Proof.
  intros H1 [H2|[H0 H2]]; [by eapply opens_fixes|].
  destruct H1 as [H1|[_ H1]]; [eapply fixes_opens; [done|by right]|].
  unfold view in H1. congruence.
Qed.

Lemma connect_opens uri m o m' :
  _connect_zmq_pub_uri uri m = (o, m') -> opens m m'.
Proof.
  destruct m as [[lk scb mon sock ctx cl] tr ns hs w]. unfold opens, view.
  intros H. crunch;
    rewrite ?created_app, ?closed_app; cbn; rewrite ?app_nil_r; auto.
Qed.

Lemma bus_client_opens e cur m o m' : bus_client e cur m = (o, m') -> opens m m'.
Proof.
  unfold bus_client. intros H.
  destruct (has_bus_uri e); [|left; by eapply (fixes_ret view)].
  destruct (negb (zmq E)); [left; by eapply (fixes_raise view)|].
  destruct (negb (tnetstring E)); [left; by eapply (fixes_raise view)|].
  cbn in H. unfold bind at 1 2 in H. unfold gets, emit in H. cbn in H.
  match type of H with context [if ?b then _ else _] => destruct b end.
  - unfold getitem in H.
    destruct (e !! "zmq_pub_uri") as [uri|];
      [|unfold bind, raise, ret in H; cbn in H; simplify_eq; left;
        by eapply view_plain].
    unfold ret at 1 in H; cbn in H.
    match type of H with context [_connect_zmq_pub_uri ?u ?m0] =>
      destruct (_connect_zmq_pub_uri u m0) as [[[]| |] m2] eqn:Hc end;
      apply connect_opens in Hc; unfold ret in H; simplify_eq;
      (eapply fixes_opens; [|exact Hc]); by eapply view_plain.
  - unfold ret, bind in H. simplify_eq. left. by eapply view_plain.
Qed.

Lemma construct_entry_opens e m o m' :
  construct_entry e m = (o, m') -> opens m m'.
Proof.
  unfold construct_entry. intros H. unfold bind at 1 in H.
  destruct (direct_client e m) as [[r1| |] m1] eqn:H1;
    apply (fixes_view _ (fixes_direct_client e)) in H1;
    [|inversion H; subst; by left..].
  unfold bind at 1 in H.
  destruct (bus_client e r1 m1) as [[r2| |] m2] eqn:H2;
    apply bus_client_opens in H2;
    [|inversion H; subst; by eapply fixes_opens..].
  eapply fixes_opens; [done|]. eapply opens_fixes; [done|].
  destruct r2; revert H; [apply (fixes_view _ (fixes_set_clients _))|apply fixes_ret].
Qed.

Lemma for_each_opens (l : list entry) m o m' :
  for_each l construct_entry m = (o, m') -> opens m m'.
Proof.
  revert m. induction l as [|e l IH]; intros m H; cbn in H.
  - unfold ret in H. inversion H; subst. apply opens_refl.
  - unfold bind in H. destruct (construct_entry e m) as [[[]| |] m1] eqn:H1;
      apply construct_entry_opens in H1; [|inversion H; by subst..].
    eapply opens_trans; [done|]. by apply IH.
Qed.

Lemma apply_config_opens cfg m o m' : apply_config cfg m = (o, m') -> opens m m'.
Proof.
  unfold apply_config. intros H. unfold bind in H.
  destruct (for_each (as_list cfg) validate_entry m) as [[[]| |] m1] eqn:H1;
    apply (fixes_view _ (fixes_for_each _ _ _ fixes_validate_entry)) in H1;
    [|inversion H; subst; by left..].
  eapply fixes_opens; [done|]. by eapply for_each_opens.
Qed.

Lemma remove_all_clients_closes m o m' :
  remove_all_clients m = (o, m') -> closes m m'.
Proof.
  unfold remove_all_clients. intros H. unfold bind at 1 2 in H.
  unfold gets at 1 in H. cbn in H.
  match type of H with context [for_each ?l ?b m] =>
    destruct (for_each l b m) as [[[]| |] m1] eqn:H1;
    assert (Hv : full_view m1 = full_view m) by (revert H1; apply fixes_for_each; solve_fixes)
  end; unfold full_view, view in Hv; simplify_eq;
    [|left; unfold view; congruence..].
  destruct m as [[lk scb mon sock ctx cl] tr ns hs w].
  destruct m1 as [[lk1 scb1 mon1 sock1 ctx1 cl1] tr1 ns1 hs1 w1].
  unfold closes, view. cbn in *. simplify_eq. crunch;
    unfold created, closed in *; rewrite ?omap_app; cbn; rewrite ?app_nil_r;
    first [left; congruence
          | right; eexists; split; [reflexivity|congruence]].
Qed.

Lemma sock_inv_fixes m m' : view m' = view m -> sock_inv m -> sock_inv m'.
Proof.
  unfold view, sock_inv. intros [= Hs Hx Hn Hc Hd]. by rewrite Hs, Hn, Hc, Hd.
Qed.

Lemma sock_inv_opens m m' : opens m m' -> sock_inv m -> sock_inv m'.
Proof.
  intros [H|[H0 H]]; [by apply sock_inv_fixes|].
  unfold view, sock_inv in *. intros (Hnd & Hlt & Hp).
  injection H as Hs Hx Hn Hc Hd. rewrite Hs, Hn, Hc, Hd.
  rewrite H0 in Hp. cbn in Hp. rewrite app_nil_r in Hp.
  split; [|split].
  - apply NoDup_app. split; [done|]. split; [|apply NoDup_singleton].
    intros s Hin ->%list_elem_of_singleton.
    eapply Forall_forall in Hlt; [|done]. lia.
  - apply Forall_app. split; [|by repeat constructor; lia].
    eapply Forall_impl; [done|]. cbn. lia.
  - cbn. by rewrite Hp.
Qed.

Lemma sock_inv_closes m m' :
  closes m m' -> sock_inv m ->
  sock_inv m' ∧ length (closed (trace m')) <= S (length (closed (trace m))).
Proof.
  intros [H|(s & H0 & H)] Hi.
  - split; [by eapply sock_inv_fixes|]. unfold view in H.
    injection H as Hs Hx Hn Hc Hd. rewrite Hd. lia.
  - unfold view, sock_inv in *. destruct Hi as (Hnd & Hlt & Hp).
    injection H as Hs Hx Hn Hc Hd. rewrite Hs, Hn, Hc, Hd.
    rewrite H0 in Hp. cbn in Hp.
    repeat split; try done.
    + cbn. by rewrite app_nil_r.
    + rewrite length_app. cbn. lia.
Qed.

Lemma opens_closed m m' : opens m m' -> closed (trace m') = closed (trace m).
Proof. unfold opens, view. intros [H|[_ H]]; by injection H. Qed.

Lemma fixes_closed {A} (c : M E A) m o m' :
  fixes view c -> c m = (o, m') -> sock_inv m ->
  sock_inv m' ∧ closed (trace m') = closed (trace m).
Proof.
  intros Hc H Hi. specialize (Hc _ _ _ H). split; [by eapply sock_inv_fixes|].
  unfold view in Hc. by injection Hc.
Qed.

Lemma run_call_sock_inv (c : call E) m o m' :
  sock_inv m -> run_call c m = (o, m') ->
  sock_inv m'
  ∧ length (closed (trace m'))
    <= length (closed (trace m))
       + match c with CallRemoveAllClients => 1 | _ => 0 end.
Proof.
  intros Hi H. destruct c; unfold run_call in H.
  - apply apply_config_opens in H. split; [by eapply sock_inv_opens|].
    rewrite (opens_closed _ _ H). lia.
  - eapply fixes_closed in H as [? ->]; [split; [done|lia]| |done].
    apply fixes_view, fixes_add_client.
  - apply remove_all_clients_closes in H.
    destruct (sock_inv_closes _ _ H Hi). split; [done|lia].
  - eapply fixes_closed in H as [? ->]; [split; [done|lia]| |done].
    apply fixes_publish.
  - eapply fixes_closed in H as [? ->]; [split; [done|lia]| |done].
    apply fixes_view, fixes_finish.
  - apply connect_opens in H. split; [by eapply sock_inv_opens|].
    rewrite (opens_closed _ _ H). lia.
  - eapply fixes_closed in H as [? ->]; [split; [done|lia]| |done].
    apply fixes_view, fixes_report.
  - eapply fixes_closed in H as [? ->]; [split; [done|lia]| |done].
    apply fixes_view, fixes_monitor_event.
Qed.

Lemma run_calls_sock_inv (cs : list (call E)) m :
  sock_inv m ->
  sock_inv (run_calls cs m)
  ∧ length (closed (trace (run_calls cs m)))
    <= length (closed (trace m)) + count_remove_all cs.
Proof.
  revert m. induction cs as [|c cs IH]; intros m Hi; cbn.
  - split; [done|lia].
  - destruct (run_call c m) as [o m1] eqn:H1.
    destruct (run_call_sock_inv _ _ _ _ Hi H1) as [Hi1 Hle].
    destruct o; [destruct (IH _ Hi1) as [? Hle2]; split; [done|]..
                |split; [done|]];
      destruct c; cbn in *; lia.
Qed.

Lemma init_sock_inv cfg cb ctx w :
  sock_inv (__init__ E cfg cb ctx w).2
  ∧ closed (trace (__init__ E cfg cb ctx w).2) = [].
Proof.
  unfold __init__.
  match goal with |- context [apply_config _ ?m0] => set (m := m0) end.
  assert (Hi : sock_inv m).
  { unfold sock_inv, m. cbn. split; [constructor|]. split; [constructor|done]. }
  destruct cfg as [cfg|]; [|by split].
  destruct (config_truthy cfg); [|by split].
  destruct (apply_config cfg m) as [o m'] eqn:H. apply apply_config_opens in H.
  cbn. split; [by eapply sock_inv_opens|]. by rewrite (opens_closed _ _ H).
Qed.

(** C7, as amended: over any sequence of calls on one object, the sockets
    made are pairwise distinct, each is closed at most once, the sockets made
    are those closed together with the one held (so at most one is open at
    any time), no more sockets were closed than [remove_all_clients] was
    called, and at most one more socket was made than [remove_all_clients]
    was called: a sequence without [remove_all_clients] makes at most one
    socket and closes none. *)
Theorem socket_lifecycle cfg sub_callback zmq_context w (cs : list (call E)) :
  let m := run_calls cs (__init__ E cfg sub_callback zmq_context w).2 in
  NoDup (created (trace m))
  ∧ NoDup (closed (trace m))
  ∧ created (trace m) ≡ₚ closed (trace m) ++ option_list (_zmq_sock (self m))
  ∧ length (closed (trace m)) <= count_remove_all cs
  ∧ length (created (trace m)) <= S (count_remove_all cs).
Proof.
  intros m. destruct (init_sock_inv cfg sub_callback zmq_context w) as [Hi H0].
  destruct (run_calls_sock_inv cs _ Hi) as [(Hnd & _ & Hp) Hle]. fold m in Hp, Hnd, Hle.
  rewrite H0 in Hle. cbn in Hle.
  split; [done|]. split; [|split; [done|split; [done|]]].
  - rewrite Hp in Hnd. by apply NoDup_app in Hnd as [? _].
  - rewrite Hp, length_app. destruct (_zmq_sock (self m)); cbn; lia.
Qed.

(** *** The machine at rest *)

Lemma ready_fixes m m' : full_view m' = full_view m -> ready m -> ready m'.
Proof.
  unfold full_view, view, ready. intros [= Hs Hx _ _ _ Hl]. by rewrite Hs, Hx, Hl.
Qed.

Lemma preserves_fixes {A} (c : M E A) : fixes full_view c -> preserves ready c.
Proof. intros Hc m o m' Hr H. eapply ready_fixes; [by eapply Hc|done]. Qed.

Lemma preserves_bind {A B} (I : machine E -> Prop) (c : M E A) (k : A -> M E B) :
  preserves I c -> (∀ a, preserves I (k a)) -> preserves I (bind c k).
Proof.
  intros Hc Hk m o m' Hi H. unfold bind in H.
  destruct (c m) as [[a| |] m1] eqn:H1; specialize (Hc _ _ _ Hi H1);
    [exact (Hk a _ _ _ Hc H)|inversion H; by subst..].
Qed.

Lemma preserves_for_each {A} (I : machine E -> Prop) (l : list A)
    (body : A -> M E unit) :
  (∀ x, preserves I (body x)) -> preserves I (for_each l body).
Proof.
  intros Hb. induction l as [|x l IH]; cbn.
  - intros m o m' Hi H. unfold ret in H. inversion H. by subst.
  - apply preserves_bind; auto.
Qed.

Lemma preserves_send_to_zmq channel it : preserves ready (_send_to_zmq (E:=E) channel it).
Proof.
  intros m o m' Hr H. rewrite (send_to_zmq_ready _ _ _ Hr) in H.
  inversion H; subst. done.
Qed.

Lemma connect_ready uri m :
  zmq E = true -> tnetstring E = true -> ready m ->
  ∃ m', _connect_zmq_pub_uri uri m = (Ret tt, m') ∧ ready m'.
Proof.
  destruct m as [[lk scb mon sock ctx cl] tr ns hs w].
  intros Hz Ht (Hl & Hx & _). cbn in *. subst. destruct (Hx Hz) as [c ->].
  unfold ready. run. rewrite Hz.
  destruct sock; [|destruct scb]; cbn; eexists; (split; [reflexivity|]); cbn; auto.
Qed.

Lemma preserves_bus_client e cur : preserves ready (bus_client (E:=E) e cur).
Proof.
  unfold bus_client. destruct (has_bus_uri e); [|apply preserves_fixes; solve_fixes].
  destruct (zmq E) eqn:Hz; [|cbn; apply preserves_fixes; solve_fixes].
  destruct (tnetstring E) eqn:Ht; [|cbn; apply preserves_fixes; solve_fixes].
  cbn. apply preserves_bind; [apply preserves_fixes; solve_fixes|intros ctx].
  apply preserves_bind; [apply preserves_fixes; solve_fixes|intros _].
  apply preserves_bind; [|intros _; apply preserves_fixes; solve_fixes].
  match goal with |- context [if ?b then _ else _] => destruct b end;
    [|apply preserves_fixes; solve_fixes].
  apply preserves_bind; [apply preserves_fixes; solve_fixes|intros uri].
  intros m o m' Hr H. destruct (connect_ready uri m Hz Ht Hr) as (m2 & H2 & Hr2).
  congruence.
Qed.

Lemma preserves_construct_entry e : preserves ready (construct_entry (E:=E) e).
Proof.
  unfold construct_entry.
  apply preserves_bind; [apply preserves_fixes, fixes_direct_client|intros r1].
  apply preserves_bind; [apply preserves_bus_client|intros r2].
  apply preserves_fixes. solve_fixes.
Qed.

Lemma preserves_apply_config cfg : preserves ready (apply_config (E:=E) cfg).
Proof.
  unfold apply_config. apply preserves_bind.
  - apply preserves_fixes, fixes_for_each, fixes_validate_entry.
  - intros _. apply preserves_for_each, preserves_construct_entry.
Qed.

Lemma remove_all_clients_ready m o m' :
  _lock (self m) = false -> remove_all_clients m = (o, m') ->
  _lock (self m') = false ∧ _zmq_ctx (self m') = _zmq_ctx (self m)
  ∧ (o = Ret tt -> clients (self m') = [] ∧ _zmq_sock (self m') = None).
Proof.
  unfold remove_all_clients. intros Hl H. unfold bind at 1 2 in H.
  unfold gets at 1 in H. cbn in H.
  match type of H with context [for_each ?l ?b m] =>
    destruct (for_each l b m) as [[[]| |] m1] eqn:H1;
    assert (Hv : full_view m1 = full_view m) by (revert H1; apply fixes_for_each; solve_fixes)
  end; unfold full_view, view in Hv; injection Hv as Hs Hx _ _ _ Hl1;
    [|inversion H; subst; split; [congruence|split; [congruence|done]]..].
  destruct m1 as [[lk1 scb1 mon1 sock1 ctx1 cl1] tr1 ns1 hs1 w1].
  cbn in *. rewrite Hl in Hl1. subst. crunch.
Qed.

Lemma preserves_remove_all_clients : preserves ready (remove_all_clients (E:=E)).
Proof.
  intros m o m' (Hl & Hx & Ht) H.
  pose proof (closes_sock := remove_all_clients_closes _ _ _ H).
  apply remove_all_clients_ready in H as (Hl' & Hx' & _); [|done].
  split; [done|]. split; [by rewrite Hx'|].
  intros Hs. apply Ht. destruct closes_sock as [Hv|(s & Hs0 & Hv)];
    unfold view in Hv; injection Hv as Hs1 _ _ _ _; [by rewrite <-Hs1|].
  rewrite Hs1 in Hs. by destruct Hs.
Qed.

Lemma preserves_publish channel it blocking callback :
  preserves ready (publish (E:=E) channel it blocking callback).
Proof.
  unfold publish. apply preserves_bind; [apply preserves_send_to_zmq|intros _].
  apply preserves_fixes. solve_fixes.
Qed.

Lemma preserves_run_call (c : call E) : public c = true -> preserves ready (run_call c).
Proof.
  destruct c; cbn; intros Hp; try done.
  - apply preserves_apply_config.
  - apply preserves_fixes, fixes_add_client.
  - apply preserves_remove_all_clients.
  - apply preserves_publish.
  - apply preserves_fixes, fixes_finish.
  - apply preserves_fixes, fixes_report.
  - apply preserves_fixes, fixes_monitor_event.
Qed.

Lemma api_reachable_ready m : api_reachable m -> ready m.
Proof.
  induction 1 as [cfg cb ctx w m H|c m o m' _ IH Hp H].
  - unfold __init__ in H.
    match type of H with context [apply_config _ ?m0] => set (m0' := m0) in H end.
    assert (Hr : ready m0').
    { unfold ready, m0'. cbn. split; [done|]. split; [|by intros []].
      intros ->. destruct ctx; by eexists. }
    destruct cfg as [cfg|]; [|inversion H; by subst].
    destruct (config_truthy cfg); [|inversion H; by subst].
    by eapply preserves_apply_config.
  - by eapply preserves_run_call.
Qed.

(** *** Publishing *)

(** C4: a blocking [publish] calls the synchronous publish of the clients in
    registration order.  If they all return, each was called once, in order,
    and [publish] returns.  If the clients [pre] return and the next client
    [c] raises [x], then [publish] raises [x], and after the bus send the only
    calls made are those of [pre] and of [c]: no later client is called. *)
Theorem publish_blocking_in_order_until_error m channel it callback :
  ready m ->
  (∀ w', all_return channel it (clients (self m)) (ext m) w' ->
     publish channel it true callback m
     = (Ret tt,
        advance m
          (bus_events E (_zmq_sock (self m)) channel it
           ++ ((λ c, EvPublish c channel it true None) <$> clients (self m)))
          w'))
  ∧ (∀ pre c post w1 x w2,
       clients (self m) = pre ++ c :: post ->
       all_return channel it pre (ext m) w1 ->
       client_publish E c channel it true None w1 = (Some x, w2) ->
       publish channel it true callback m
       = (Raise x,
          advance m
            (bus_events E (_zmq_sock (self m)) channel it
             ++ ((λ c, EvPublish c channel it true None) <$> (pre ++ [c])))
            w2)).
Proof.
  intros Hr. unfold publish.
  rewrite (bind_Ret _ _ _ _ _ (send_to_zmq_ready channel it m Hr)).
  unfold bind, gets. cbn [self advance fst snd]. split.
  - intros w' Hall. erewrite blocking_loop_all_return by exact Hall.
    unfold advance. cbn. by rewrite <-app_assoc.
  - intros pre c post w1 x w2 Hcs Hpre Hc. rewrite Hcs.
    erewrite blocking_loop_raises by (first [exact Hpre|exact Hc]).
    unfold advance. cbn. by rewrite <-app_assoc.
Qed.

(** C6: on every machine reachable through the public methods, [publish],
    blocking or not, starts with the bus send.  [_send_to_zmq] returns no
    result and changes nothing but the trace: between taking and releasing
    the lock it sends [[channel; content]] on the shared socket when there is
    one (the channel through [_ensure_utf8], the content [dumps] of
    [item.export(True, True)]), and sends nothing when there is none.
    Everything [publish] does after it is about the clients. *)
Theorem publish_sends_to_zmq_first m channel it blocking callback :
  api_reachable m ->
  _send_to_zmq channel it m
  = (Ret tt, advance m (bus_events E (_zmq_sock (self m)) channel it) (ext m))
  ∧ ∃ rest,
      trace (publish channel it blocking callback m).2
      = trace m ++ bus_events E (_zmq_sock (self m)) channel it ++ rest
      ∧ forallb client_event rest = true.
Proof.
  intros Hr%api_reachable_ready.
  pose proof (send_to_zmq_ready channel it m Hr) as Hs. split; [done|].
  unfold publish. rewrite (bind_Ret _ _ _ _ _ Hs).
  set (m1 := advance m _ _).
  assert (Hloop : ∀ cb (m2 : machine E) evs,
    trace m2 = trace m1 ++ evs -> forallb client_event evs = true ->
    ∃ rest,
      trace (for_each (clients (self m2))
               (λ c, call_client (EvPublish c channel it blocking cb)
                       (client_publish E c channel it blocking cb)) m2).2
      = trace m ++ bus_events E (_zmq_sock (self m)) channel it ++ rest
      ∧ forallb client_event rest = true).
  { intros cb m2 evs Ht Hevs.
    match goal with |- context [for_each ?l ?b m2] =>
      destruct (for_each l b m2) as [o m3] eqn:H3 end.
    apply publish_loop_prefix in H3 as (k & w' & -> & _). cbn [snd].
    exists (evs ++ ((λ c, EvPublish c channel it blocking cb)
                      <$> take k (clients (self m2)))).
    unfold advance at 1. cbn [trace]. rewrite Ht. unfold m1, advance.
    cbn [trace]. rewrite <-!app_assoc. split; [done|].
    rewrite forallb_app, Hevs. cbn. apply forallb_forall.
    intros ev (c & -> & _)%list_elem_of_In%list_elem_of_fmap. done. }
  destruct blocking.
  - unfold bind, gets. apply (Hloop None m1 []); [by rewrite app_nil_r|done].
  - destruct callback as [f|]; unfold bind, gets, new_handler, ret; cbn [fst snd].
    + match goal with |- context [for_each _ _ ?m2] =>
        apply (Hloop _ m2 [EvNewHandler (length (handlers m1)) (length (clients (self m1))) f]) end;
        done.
    + apply (Hloop None m1 []); [by rewrite app_nil_r|done].
Qed.





(** *** The fan-in of completions *)

Lemma first_error_all_ok (l : list (bool * string)) :
  Forall (λ r, r.1 = true) l -> forallb fst l = true ∧ Handler.first_error l = "".
Proof.
  induction 1 as [|[ok msg] l Hok _ [IH1 IH2]]; cbn in *; [done|].
  subst. by rewrite IH1.
Qed.

Lemma first_error_first_failure (pre post : list (bool * string)) r :
  Forall (λ r, r.1 = true) pre -> r.1 = false ->
  forallb fst (pre ++ r :: post) = false
  ∧ Handler.first_error (pre ++ r :: post) = r.2.
Proof.
  intros Hpre Hr. induction Hpre as [|[ok msg] l Hok _ [IH1 IH2]]; cbn in *.
  - destruct r as [ok msg]. cbn in *. by subst.
  - subst. by rewrite IH1.
Qed.

Lemma handler_pending obj ok message :
  S (Handler.counter obj) < Handler.num_calls obj ->
  Handler.handler obj ok message = (Some (Handler.absorb obj [(ok, message)]), None).
Proof.
  intros Hlt. unfold Handler.handler, Handler.absorb.
  destruct (Nat.eqb_spec (S (Handler.counter obj)) (Handler.num_calls obj))
    as [Heq|_]; [lia|].
  cbn. do 2 f_equal. destruct obj as [n cb k s msg], ok, s; cbn; f_equal; lia.
Qed.

Lemma absorb_cons obj r l :
  Handler.absorb (Handler.absorb obj [r]) l = Handler.absorb obj (r :: l).
Proof.
  unfold Handler.absorb. destruct obj as [n cb k s msg], r as [[] rmsg], s; cbn;
    f_equal; try lia; by destruct (forallb fst l).
Qed.

Lemma handler_last obj ok message :
  S (Handler.counter obj) = Handler.num_calls obj ->
  Handler.handler obj ok message
  = (None, Some (Handler.success (Handler.absorb obj [(ok, message)]),
                 Handler.first_error_message (Handler.absorb obj [(ok, message)]))).
Proof.
  intros Heq. unfold Handler.handler, Handler.absorb. rewrite Heq, Nat.eqb_refl.
  destruct obj as [n cb k s msg], ok, s; reflexivity.
Qed.

Lemma run_reports_cons h r (l : list (bool * string)) m :
  run_reports h (r :: l) m = run_reports h l (report h r.1 r.2 m).2.
Proof. reflexivity. Qed.

Lemma run_reports_app h (l1 l2 : list (bool * string)) m :
  run_reports h (l1 ++ l2) m = run_reports h l2 (run_reports h l1 m).
Proof. apply fold_left_app. Qed.

(** Reports short of the expected number change the handler and nothing else. *)
Lemma run_reports_pending h obj (l : list (bool * string)) m :
  handlers m !! h = Some (Some obj) ->
  Handler.counter obj + length l < Handler.num_calls obj ->
  run_reports h l m
  = {| self := self m; trace := trace m; next_socket := next_socket m;
       handlers := <[h := Some (Handler.absorb obj l)]> (handlers m);
       ext := ext m |}.
Proof.
  revert obj m. induction l as [|[ok msg] l IH]; intros obj m Hh Hlt.
  - cbn. destruct m as [p tr ns hs w]. cbn in *. f_equal.
    rewrite list_insert_id; [done|]. rewrite Hh. do 2 f_equal.
    unfold Handler.absorb. destruct obj; cbn.
    f_equal; [lia|by rewrite andb_true_r|by rewrite andb_false_r].
  - cbn in Hlt. rewrite run_reports_cons. unfold report. rewrite Hh.
    cbn [fst snd]. rewrite handler_pending by lia. cbn [snd].
    erewrite IH; cycle 1.
    + cbn. apply list_lookup_insert_eq. by eapply lookup_lt_Some.
    + cbn. lia.
    + cbn. by rewrite list_insert_insert_eq, absorb_cons.
Qed.

Lemma absorb_app obj (l1 l2 : list (bool * string)) :
  Handler.absorb (Handler.absorb obj l1) l2 = Handler.absorb obj (l1 ++ l2).
Proof.
  revert obj. induction l1 as [|r l1 IH]; intros obj.
  - unfold Handler.absorb. destruct obj as [n cb k [] msg]; cbn; f_equal; lia.
  - cbn [app].
    by rewrite <-(absorb_cons obj r (l1 ++ l2)), <-(absorb_cons obj r l1), IH.
Qed.

Lemma report_last h obj ok message m :
  handlers m !! h = Some (Some obj) ->
  S (Handler.counter obj) = Handler.num_calls obj ->
  trace (report h ok message m).2
  = trace m ++ [EvCallback (Handler.callback obj)
                  (Handler.success (Handler.absorb obj [(ok, message)]))
                  (Handler.first_error_message (Handler.absorb obj [(ok, message)]))].
Proof.
  intros Hh Heq. unfold report. rewrite Hh, handler_last by done. reflexivity.
Qed.

(** The report that reaches the expected number invokes the callback. *)
Lemma run_reports_complete h obj (l : list (bool * string)) m :
  handlers m !! h = Some (Some obj) ->
  Handler.counter obj + length l = Handler.num_calls obj ->
  l ≠ [] ->
  trace (run_reports h l m)
  = trace m ++ [EvCallback (Handler.callback obj)
                  (Handler.success (Handler.absorb obj l))
                  (Handler.first_error_message (Handler.absorb obj l))].
Proof.
  intros Hh Heq Hne.
  destruct (exists_last Hne) as (pre & [ok msg] & ->). clear Hne.
  rewrite length_app in Heq. cbn [length] in Heq.
  rewrite run_reports_app, (run_reports_pending h obj pre m Hh) by lia.
  rewrite run_reports_cons. cbn [run_reports fold_left fst snd].
  erewrite (report_last h (Handler.absorb obj pre)).
  - by rewrite absorb_app.
  - cbn [handlers]. apply list_lookup_insert_eq. by eapply lookup_lt_Some.
  - unfold Handler.absorb. cbn [Handler.counter Handler.num_calls]. lia.
Qed.




(** *** Subscription events *)

(** The monitor made by [_connect_zmq_pub_uri] is bound to the consumer's
    callback itself. *)
Lemma connect_binds_consumer_callback uri m m' f :
  _zmq_sock (self m) = None -> _sub_callback (self m) = Some f ->
  _connect_zmq_pub_uri uri m = (Ret tt, m') ->
  _zmq_sub_monitor (self m')
  = Some (Monitor.new (next_socket m) f).
Proof.
  destruct m as [[lk scb mon sock ctx cl] tr ns hs w]. cbn.
  intros -> -> H. crunch.
Qed.

(** Every raw edge seen by that monitor goes to the consumer's callback,
    whatever the monitors of the clients hold. *)
Lemma monitor_event_reaches_consumer ev chan m mo :
  _zmq_sub_monitor (self m) = Some mo ->
  ∃ m', monitor_event ev chan m = (Ret tt, m')
        ∧ trace m' = trace m ++ [EvSubCallback (Monitor.callback mo) ev chan]
        ∧ clients (self m') = clients (self m).
Proof.
  intros Hmo. unfold monitor_event, bind, gets. rewrite Hmo.
  destruct ev; cbn; eexists; (split; [reflexivity|]); by cbn.
Qed.

(** [_submonitor_callback] cannot run. *)
Lemma submonitor_callback_raises ev chan m :
  _submonitor_callback ev chan m = (Raise (NameError "self"), m).
Proof. reflexivity. Qed.

(** ** Further properties of the methods *)

(** *** Loops that call a method of the clients *)

Section guarded.
Context (p : client -> bool) (ev : client -> event E)
  (f : client -> world E -> option exn * world E).

Lemma guarded_loop_returns cs m w' :
  calls_return f (List.filter p cs) (ext m) w' ->
  for_each cs (λ c, if p c then call_client (ev c) (f c) else ret tt) m
  = (Ret tt, advance m (ev <$> List.filter p cs) w').
Proof.
  revert m. induction cs as [|c cs IH]; intros m H; cbn in *.
  - inversion H; subst. unfold ret, advance. cbn. rewrite app_nil_r. by destruct m.
  - unfold bind. destruct (p c); cbn in *.
    + inversion H as [|? ? ? w1 ? Hc Hrest]; subst. unfold call_client. rewrite Hc.
      rewrite IH by exact Hrest. unfold advance. cbn. by rewrite <-app_assoc.
    + by apply IH.
Qed.

Lemma guarded_loop_raises pre c post m w1 x w2 :
  p c = true ->
  calls_return f (List.filter p pre) (ext m) w1 ->
  f c w1 = (Some x, w2) ->
  for_each (pre ++ c :: post)
    (λ c, if p c then call_client (ev c) (f c) else ret tt) m
  = (Raise x, advance m (ev <$> (List.filter p pre ++ [c])) w2).
Proof.
  intros Hp Hpre Hc. rewrite for_each_app.
  rewrite (bind_Ret _ _ _ _ _ (guarded_loop_returns _ _ _ Hpre)).
  cbn. unfold bind. rewrite Hp. unfold call_client. cbn. rewrite Hc.
  unfold advance. cbn. by rewrite fmap_app, <-app_assoc.
Qed.

(** Whatever happens in such a loop, the object is not touched and the loop
    does not wait for the lock. *)
Lemma guarded_loop_self cs m o m' :
  for_each cs (λ c, if p c then call_client (ev c) (f c) else ret tt) m = (o, m') ->
  self m' = self m ∧ handlers m' = handlers m ∧ next_socket m' = next_socket m
  ∧ o ≠ Blocked.
Proof.
  revert m. induction cs as [|c cs IH]; intros m H; cbn in H.
  - unfold ret in H. by simplify_eq.
  - unfold bind in H. destruct (p c).
    + unfold call_client in H. destruct (f c (ext m)) as [[y|] w].
      * by simplify_eq.
      * by apply IH in H.
    + by apply IH in H.
Qed.

End guarded.

(** *** [finish] *)

(** X1: [finish] calls [finish] on the clients that are not bus clients, in
    registration order, and on no other; it returns when they all return,
    and when one of them raises it raises that error without calling the
    clients after it.  It changes nothing in the object and does not take the
    lock. *)
Theorem finish_calls_direct_clients m :
  (∀ w',
     calls_return (client_finish E)
       (List.filter (λ c, negb (is_ZmqPubControlClient c)) (clients (self m)))
       (ext m) w' ->
     finish m
     = (Ret tt,
        advance m
          (EvFinish <$> List.filter (λ c, negb (is_ZmqPubControlClient c))
                          (clients (self m)))
          w'))
  ∧ (∀ pre c post w1 x w2,
       clients (self m) = pre ++ c :: post ->
       is_ZmqPubControlClient c = false ->
       calls_return (client_finish E)
         (List.filter (λ c, negb (is_ZmqPubControlClient c)) pre) (ext m) w1 ->
       client_finish E c w1 = (Some x, w2) ->
       finish m
       = (Raise x,
          advance m
            (EvFinish <$> (List.filter (λ c, negb (is_ZmqPubControlClient c)) pre
                           ++ [c]))
            w2)).
Proof.
  unfold finish, bind, gets. cbn. split.
  - intros w' H.
    exact (guarded_loop_returns (λ c, negb (is_ZmqPubControlClient c)) EvFinish
             (client_finish E) _ m w' H).
  - intros pre c post w1 x w2 -> Hc Hpre Hx.
    apply (guarded_loop_raises (λ c, negb (is_ZmqPubControlClient c)) EvFinish
             (client_finish E) pre c post m w1 x w2); [by rewrite Hc|done..].
Qed.

(** *** [remove_all_clients] *)

Lemma remove_all_clients_tail m :
  (bind (modify (set_clients []))
     (λ _, bind (gets _zmq_sock)
             (λ sock, match sock with
                      | Some s =>
                          bind acquire
                            (λ _, bind (emit (EvSockClose s))
                                    (λ _, bind (modify (set_sock None))
                                            (λ _, release)))
                      | None => ret tt
                      end))) m
  = match _zmq_sock (self m) with
    | None => (Ret tt, with_self (set_clients []) m)
    | Some s =>
        if _lock (self m) then (Blocked, with_self (set_clients []) m)
        else (Ret tt,
              {| self := set_sock None (set_clients [] (self m));
                 trace := trace m ++ [EvAcquire; EvSockClose s; EvRelease];
                 next_socket := next_socket m; handlers := handlers m;
                 ext := ext m |})
    end.
Proof.
  destruct m as [[lk scb mon sock ctx cl] tr ns hs w].
  destruct sock, lk; run; rewrite <-?app_assoc; reflexivity.
Qed.

Lemma remove_all_clients_unfold m :
  remove_all_clients m
  = bind (for_each (clients (self m))
            (λ c, if negb (is_PubControlClient c)
                  then call_client (EvClose c) (client_close E c)
                  else ret tt))
      (λ _, bind (modify (set_clients []))
              (λ _, bind (gets _zmq_sock)
                      (λ sock, match sock with
                               | Some s =>
                                   bind acquire
                                     (λ _, bind (emit (EvSockClose s))
                                             (λ _, bind (modify (set_sock None))
                                                     (λ _, release)))
                               | None => ret tt
                               end))) m.
Proof. reflexivity. Qed.

(** X2: with the lock free, when the [close] of every client that is not a
    direct client returns, [remove_all_clients] returns after closing exactly
    those clients, in registration order, then emptying the client list, then
    closing the shared socket under the lock if there is one. *)
Theorem remove_all_clients_closes_bus_clients m w' :
  _lock (self m) = false ->
  calls_return (client_close E)
    (List.filter (λ c, negb (is_PubControlClient c)) (clients (self m)))
    (ext m) w' ->
  remove_all_clients m
  = (Ret tt,
     {| self := set_sock None (set_clients [] (self m));
        trace :=
          trace m
          ++ (EvClose <$> List.filter (λ c, negb (is_PubControlClient c))
                            (clients (self m)))
          ++ match _zmq_sock (self m) with
             | Some s => [EvAcquire; EvSockClose s; EvRelease]
             | None => []
             end;
        next_socket := next_socket m; handlers := handlers m; ext := w' |}).
Proof.
  intros Hl H. rewrite remove_all_clients_unfold.
  rewrite (bind_Ret _ _ _ _ _
             (guarded_loop_returns (λ c, negb (is_PubControlClient c)) EvClose
                (client_close E) _ m w' H)).
  rewrite remove_all_clients_tail. unfold advance. cbn. rewrite Hl.
  destruct (_zmq_sock (self m)) eqn:Hs; unfold with_self; cbn;
    rewrite <-?app_assoc, ?app_nil_r; [reflexivity|].
  do 2 f_equal. destruct (self m); cbn in *. by subst.
Qed.


(** X4: after [remove_all_clients] has returned, calling it again returns
    and does nothing at all. *)
Theorem remove_all_clients_idempotent m m' :
  remove_all_clients m = (Ret tt, m') ->
  remove_all_clients m' = (Ret tt, m').
Proof.
  rewrite remove_all_clients_unfold. unfold bind at 1.
  match goal with |- context [for_each ?l ?b m] =>
    destruct (for_each l b m) as [[[]| |] m1] eqn:H1 end; [|done..].
  rewrite remove_all_clients_tail. intros H.
  assert (Hm' : clients (self m') = [] ∧ _zmq_sock (self m') = None).
  { destruct (_zmq_sock (self m1)) eqn:Hs; [destruct (_lock (self m1))|];
      simplify_eq; cbn; auto. }
  destruct Hm' as [Hc Hs]. rewrite remove_all_clients_unfold, Hc.
  cbn [for_each]. unfold bind at 1. unfold ret at 1.
  rewrite remove_all_clients_tail, Hs.
  f_equal. destruct m' as [[lk scb mon sock ctx cl] tr ns hs w]. cbn in *.
  by subst.
Qed.

(** *** [__init__] and [apply_config] *)

Lemma init_apply_config cfg sub_callback zmq_context w :
  __init__ E (Some cfg) sub_callback zmq_context w
  = apply_config cfg (__init__ E None sub_callback zmq_context w).2.
Proof.
  unfold __init__. cbn [snd].
  destruct (config_truthy cfg) eqn:Ht; [reflexivity|].
  destruct cfg as [e|l]; cbn in Ht;
    apply negb_false_iff, bool_decide_eq_true in Ht; subst; reflexivity.
Qed.

(** X5: the constructor with a configuration is the constructor without one
    followed by [apply_config], also for an empty dict or list: the [if
    config:] guard skips only calls that would do nothing. *)
Theorem init_with_config_is_apply_config cfg sub_callback zmq_context w :
  __init__ E (Some cfg) sub_callback zmq_context w
  = apply_config cfg (__init__ E None sub_callback zmq_context w).2.
Proof.
  unfold __init__. cbn [snd].
  destruct (config_truthy cfg) eqn:Ht; [reflexivity|].
  destruct cfg as [e|l]; cbn in Ht;
    apply negb_false_iff, bool_decide_eq_true in Ht; subst; reflexivity.
Qed.

Lemma bind_unfold {A B} (c : M E A) (k : A -> M E B) m :
  bind c k m = match c m with
               | (Ret a, m') => k a m'
               | (Raise x, m') => (Raise x, m')
               | (Blocked, m') => (Blocked, m')
               end.
Proof. reflexivity. Qed.

(** X6: when the entries [l2] pass validation, applying [l1 ++ l2] in one
    call is applying [l1] and then, if that returned, [l2]. *)
Theorem apply_config_app (l1 l2 : list entry) m :
  Forall (λ e, rejected e = false) l2 ->
  apply_config (ConfigList (l1 ++ l2)) m
  = bind (apply_config (ConfigList l1)) (λ _, apply_config (ConfigList l2)) m.
Proof.
  intros H2. rewrite (bind_unfold (apply_config (ConfigList l1))).
  unfold apply_config. cbn [as_list].
  destruct (decide (Forall (λ e, rejected e = false) l1)) as [H1|H1].
  - rewrite (bind_Ret _ _ _ _ _
               (validate_all_ok _ m (proj2 (Forall_app _ _ _) (conj H1 H2)))).
    rewrite (bind_Ret _ _ _ _ _ (validate_all_ok _ m H1)).
    rewrite for_each_app, bind_unfold.
    destruct (for_each l1 construct_entry m) as [[[]| |] m1]; [|reflexivity..].
    by rewrite (bind_Ret _ _ _ _ _ (validate_all_ok _ m1 H2)).
  - assert (H1' : Exists (λ e, rejected e = true) l1).
    { apply not_Forall_Exists in H1; [|apply _].
      eapply Exists_impl; [exact H1|]. intros e. cbn. by destruct (rejected e). }
    rewrite (bind_Raise _ _ _ _ _
               (validate_some_rejected _ m
                  (proj2 (Exists_app _ _ _) (or_introl H1')))).
    by rewrite (bind_Raise _ _ _ _ _ (validate_some_rejected _ m H1')).
Qed.

(** X7: an entry that passes validation and has a [uri] and an [iss] but no
    [key] makes [apply_config] raise [KeyError('key')] after the direct
    client was constructed: [set_auth_jwt] is not called, no client is
    registered and nothing else happens. *)
Theorem apply_config_iss_without_key e m uri iss :
  rejected e = false ->
  e !! "uri" = Some uri -> e !! "iss" = Some iss -> e !! "key" = None ->
  apply_config (ConfigDict e) m
  = (Raise (KeyError "key"),
     advance m [EvNewClient (PubControlClient uri None)] (ext m)).
Proof.
  intros Hok Huri Hiss Hkey. unfold apply_config. cbn [as_list].
  rewrite (bind_Ret _ _ _ _ _ (validate_all_ok [e] m ltac:(by constructor))).
  cbn [for_each]. apply bind_Raise. unfold construct_entry. apply bind_Raise.
  unfold direct_client, dict_in, getitem. rewrite Huri, Hiss, Hkey. reflexivity.
Qed.

(** X8: for an entry with a bus URI, when [zmq] or [tnetstring] is missing
    [apply_config] raises the [ValueError] naming the package, [zmq] first;
    no client is registered and the socket, the lock and the handlers are
    untouched. *)
Theorem apply_config_missing_package e m :
  rejected e = false -> has_bus_uri e = true ->
  (is_Some (e !! "uri") -> is_Some (e !! "iss") -> is_Some (e !! "key")) ->
  zmq E && tnetstring E = false ->
  ∃ m', apply_config (ConfigDict e) m
        = (Raise (ValueError (if zmq E
                              then "tnetstring package must be installed"
                              else "zmq package must be installed")), m')
        ∧ self m' = self m ∧ handlers m' = handlers m ∧ ext m' = ext m
        ∧ full_view m' = full_view m.
Proof.
  intros Hok Hbus Hkey Hpk. unfold apply_config. cbn [as_list].
  rewrite (bind_Ret _ _ _ _ _ (validate_all_ok [e] m ltac:(by constructor))).
  destruct (direct_client_returns e m Hkey) as (r & m1 & H1).
  pose proof (direct_client_result _ _ _ _ H1) as (Hs & Hh & Hx & _).
  pose proof (fixes_direct_client e _ _ _ H1) as Hv.
  exists m1. split; [|by rewrite Hs, Hh, Hx].
  cbn [for_each]. apply bind_Raise. unfold construct_entry.
  rewrite (bind_Ret _ _ _ _ _ H1). apply bind_Raise.
  unfold bus_client. rewrite Hbus.
  destruct (zmq E); [|reflexivity]. cbn in Hpk. by rewrite Hpk.
Qed.

(** *** [_connect_zmq_pub_uri] *)

(** X9: with the lock free and a shared socket already there,
    [_connect_zmq_pub_uri] only connects that socket to the URI, under the
    lock: no socket is made, the linger is not set again, and no monitor is
    attached even if the object has a subscription callback. *)
Theorem connect_reuses_socket uri m s :
  _lock (self m) = false -> _zmq_sock (self m) = Some s ->
  _connect_zmq_pub_uri uri m
  = (Ret tt, advance m [EvAcquire; EvConnect s uri; EvRelease] (ext m)).
Proof.
  destruct m as [[lk scb mon sock ctx cl] tr ns hs w]. cbn. intros -> ->.
  run. unfold advance. cbn. by rewrite <-!app_assoc.
Qed.

(** X10: without the [zmq] package and without a shared socket,
    [_connect_zmq_pub_uri] raises an [AttributeError] after taking the lock
    and does not release it: no socket was made, and every later [publish]
    waits for the lock for ever. *)
Theorem connect_without_zmq_keeps_lock uri m channel it blocking callback :
  zmq E = false -> _lock (self m) = false -> _zmq_sock (self m) = None ->
  ∃ x m', _connect_zmq_pub_uri uri m = (Raise (AttributeError x), m')
          ∧ _lock (self m') = true ∧ _zmq_sock (self m') = None
          ∧ created (trace m') = created (trace m)
          ∧ publish channel it blocking callback m' = (Blocked, m').
Proof.
  destruct m as [[lk scb mon sock ctx cl] tr ns hs w]. cbn. intros Hz -> ->.
  unfold publish. run. rewrite Hz.
  destruct ctx; cbn; eexists _, _; (split; [reflexivity|]); cbn;
    (split; [done|]); (split; [done|]); (split; [|done]);
    unfold created; rewrite omap_app; cbn; by rewrite app_nil_r.
Qed.

Lemma connect_ready_exact uri m :
  ready m -> zmq E = true -> tnetstring E = true ->
  ∃ m', _connect_zmq_pub_uri uri m = (Ret tt, m')
        ∧ ready m'
        ∧ clients (self m') = clients (self m)
        ∧ ∃ s evs, _zmq_sock (self m') = Some s
                   ∧ trace m' = trace m ++ evs ++ [EvConnect s uri; EvRelease]
                   ∧ connections evs = [].
Proof.
  destruct m as [[lk scb mon sock ctx cl] tr ns hs w].
  intros (Hl & Hx & _) Hz Ht. cbn in *. subst. destruct (Hx Hz) as [c ->].
  unfold ready. run. rewrite Hz.
  destruct sock; [|destruct scb]; cbn; eexists; (split; [reflexivity|]); cbn;
    (split; [split_and!; by eauto|]); (split; [done|]); eexists _, _;
    (split; [done|]).
  - instantiate (1 := [EvAcquire]). by rewrite <-?app_assoc.
  - instantiate (1 := [EvAcquire; EvSocket ns; EvLinger ns 0; EvMonitor ns n]).
    by rewrite <-?app_assoc.
  - instantiate (1 := [EvAcquire; EvSocket ns; EvLinger ns 0]).
    by rewrite <-?app_assoc.
Qed.

(** *** Computations outside the lock *)

Lemma quiet_refl m : quiet m m.
Proof. repeat split. exists []. by rewrite app_nil_r. Qed.

Lemma quiet_trans m1 m2 m3 : quiet m1 m2 -> quiet m2 m3 -> quiet m1 m3.
Proof.
  intros (Hl & Hc & Hm & Hs & Hx & Hn & evs & Ht & He)
         (Hl' & Hc' & Hm' & Hs' & Hx' & Hn' & evs' & Ht' & He').
  repeat split; try congruence. exists (evs ++ evs').
  rewrite Ht', Ht, <-app_assoc. split; [done|]. by rewrite forallb_app, He, He'.
Qed.

Lemma quiet_same m m' :
  self m' = self m -> next_socket m' = next_socket m -> trace m' = trace m ->
  quiet m m'.
Proof.
  intros Hs Hn Ht. unfold quiet. rewrite Hs, Hn, Ht. repeat split.
  exists []. by rewrite app_nil_r.
Qed.

Lemma quiet_event m m' (ev : event E) :
  self m' = self m -> next_socket m' = next_socket m ->
  trace m' = trace m ++ [ev] -> outside ev = true -> quiet m m'.
Proof.
  intros Hs Hn Ht He. unfold quiet. rewrite Hs, Hn. repeat split.
  exists [ev]. split; [done|]. cbn. by rewrite He.
Qed.

Lemma quietly_ret {A} (a : A) : quietly (ret (E:=E) a).
Proof. intros m o m' [= <- <-]. apply quiet_refl. Qed.

Lemma quietly_raise {A} x : quietly (raise (E:=E) (A:=A) x).
Proof. intros m o m' [= <- <-]. apply quiet_refl. Qed.

Lemma quietly_gets {A} (f : PubControl -> A) : quietly (gets (E:=E) f).
Proof. intros m o m' [= <- <-]. apply quiet_refl. Qed.

Lemma quietly_getitem e k : quietly (getitem (E:=E) e k).
Proof. unfold getitem. destruct (e !! k); [apply quietly_ret|apply quietly_raise]. Qed.

Lemma quietly_emit (ev : event E) : outside ev = true -> quietly (emit ev).
Proof. intros He m o m' [= <- <-]. by eapply quiet_event. Qed.

Lemma quietly_call_client (ev : event E) f :
  outside ev = true -> quietly (call_client ev f).
Proof.
  intros He m o m' H. unfold call_client in H. destruct (f (ext m)) as [r w].
  injection H as <- <-. by eapply quiet_event.
Qed.

Lemma quietly_new_handler n cb : quietly (new_handler (E:=E) n cb).
Proof. intros m o m' [= <- <-]. by eapply quiet_event. Qed.

Lemma quietly_set_clients (f : PubControl -> list client) :
  quietly (modify (E:=E) (λ p, set_clients (f p) p)).
Proof.
  intros m o m' [= <- <-]. repeat split. exists []. by rewrite app_nil_r.
Qed.

Lemma quietly_bind {A B} (c : M E A) (k : A -> M E B) :
  quietly c -> (∀ a, quietly (k a)) -> quietly (bind c k).
Proof.
  intros Hc Hk m o m' H. unfold bind in H.
  destruct (c m) as [[a| |] m1] eqn:H1; specialize (Hc _ _ _ H1).
  - eapply quiet_trans; [done|]. by eapply Hk.
  - by injection H as <- <-.
  - by injection H as <- <-.
Qed.

Lemma quietly_for_each {A} (l : list A) (body : A -> M E unit) :
  (∀ x, quietly (body x)) -> quietly (for_each l body).
Proof.
  intros Hb. induction l as [|x l IH]; cbn.
  - apply quietly_ret.
  - apply quietly_bind; auto.
Qed.

Lemma quietly_if {A} (b : bool) (c1 c2 : M E A) :
  quietly c1 -> quietly c2 -> quietly (if b then c1 else c2).
Proof. by destruct b. Qed.

Create HintDb quiet.
#[local] Hint Resolve quietly_ret quietly_raise quietly_gets quietly_getitem
  quietly_new_handler quietly_set_clients : quiet.
#[local] Hint Extern 2 (quietly (bind _ _)) => (apply quietly_bind; [|intros ?]) : quiet.
#[local] Hint Extern 2 (quietly (for_each _ _)) => (apply quietly_for_each; intros ?) : quiet.
#[local] Hint Extern 2 (quietly (if _ then _ else _)) => apply quietly_if : quiet.
#[local] Hint Extern 2 (quietly (match ?x with _ => _ end)) => destruct x : quiet.
#[local] Hint Extern 3 (quietly (emit _)) => (apply quietly_emit; reflexivity) : quiet.
#[local] Hint Extern 3 (quietly (call_client _ _)) =>
  (apply quietly_call_client; reflexivity) : quiet.

Ltac solve_quiet := eauto 20 with quiet.

Lemma quietly_validate_entry e : quietly (validate_entry (E:=E) e).
Proof. unfold validate_entry. solve_quiet. Qed.

Lemma quietly_direct_client e : quietly (direct_client (E:=E) e).
Proof. unfold direct_client. solve_quiet. Qed.

Lemma quietly_add_client c : quietly (add_client (E:=E) c).
Proof. unfold add_client. solve_quiet. Qed.

Lemma quietly_finish : quietly (finish (E:=E)).
Proof. unfold finish. solve_quiet. Qed.

Lemma quietly_report h ok message : quietly (report (E:=E) h ok message).
Proof.
  intros m o m' H. unfold report in H.
  destruct (handlers m !! h) as [[obj|]|];
    [|injection H as <- <-; apply quiet_refl..].
  destruct (Handler.handler obj ok message) as [obj' [[s msg]|]].
  - unfold emit in H. injection H as <- <-. by eapply quiet_event.
  - injection H as <- <-. by apply quiet_same.
Qed.

Lemma quietly_dispatch (channel : string) (it : item E) (blocking : bool)
    (callback : option nat) :
  quietly (E:=E) (A:=unit)
    (if blocking then
       bind (gets clients) (λ cs,
         for_each cs (λ c,
           call_client (EvPublish c channel it true None)
             (client_publish E c channel it true None)))
     else
       bind (match callback with
             | Some f =>
                 bind (gets clients) (λ cs,
                   bind (new_handler (length cs) f) (λ h, ret (Some h)))
             | None => ret None
             end)
         (λ cb, bind (gets clients) (λ cs,
            for_each cs (λ c,
              call_client (EvPublish c channel it false cb)
                (client_publish E c channel it false cb))))).
Proof. solve_quiet. Qed.

(** *** Invariants of every sequence of calls *)

Section invariant.
Context (I : machine E -> Prop).
Context (I_quiet : ∀ m m', quiet m m' -> I m -> I m').
Context (I_send : ∀ channel it, preserves I (_send_to_zmq (E:=E) channel it)).
Context (I_connect : ∀ uri, preserves I (_connect_zmq_pub_uri (E:=E) uri)).
Context (I_remove : preserves I (remove_all_clients (E:=E))).
Context (I_monitor : ∀ ev chan, preserves I (monitor_event (E:=E) ev chan)).

Lemma preserves_quietly {A} (c : M E A) : quietly c -> preserves I c.
Proof. intros Hc m o m' Hi H. eapply I_quiet; [by eapply Hc|done]. Qed.

Lemma invariant_bus_client e cur : preserves I (bus_client (E:=E) e cur).
Proof.
  unfold bus_client.
  destruct (has_bus_uri e); [|apply preserves_quietly; solve_quiet].
  destruct (negb (zmq E)); [apply preserves_quietly; solve_quiet|].
  destruct (negb (tnetstring E)); [apply preserves_quietly; solve_quiet|].
  cbn. apply preserves_bind; [apply preserves_quietly; solve_quiet|intros ctx].
  apply preserves_bind; [apply preserves_quietly; solve_quiet|intros _].
  apply preserves_bind; [|intros _; apply preserves_quietly; solve_quiet].
  match goal with |- context [if ?b then _ else _] => destruct b end;
    [|apply preserves_quietly; solve_quiet].
  apply preserves_bind; [apply preserves_quietly; solve_quiet|intros uri].
  apply I_connect.
Qed.

Lemma invariant_apply_config cfg : preserves I (apply_config (E:=E) cfg).
Proof.
  unfold apply_config. apply preserves_bind.
  - apply preserves_quietly, quietly_for_each, quietly_validate_entry.
  - intros _. apply preserves_for_each. intros e. unfold construct_entry.
    apply preserves_bind; [apply preserves_quietly, quietly_direct_client|intros r1].
    apply preserves_bind; [apply invariant_bus_client|intros r2].
    apply preserves_quietly. solve_quiet.
Qed.

Lemma invariant_publish channel it blocking callback :
  preserves I (publish (E:=E) channel it blocking callback).
Proof.
  unfold publish. apply preserves_bind; [apply I_send|intros _].
  apply preserves_quietly, quietly_dispatch.
Qed.

Lemma invariant_run_call (c : call E) : preserves I (run_call c).
Proof.
  destruct c; unfold run_call.
  - apply invariant_apply_config.
  - apply preserves_quietly, quietly_add_client.
  - apply I_remove.
  - apply invariant_publish.
  - apply preserves_quietly, quietly_finish.
  - apply I_connect.
  - apply preserves_quietly, quietly_report.
  - apply I_monitor.
Qed.

Lemma invariant_run_calls (cs : list (call E)) m : I m -> I (run_calls cs m).
Proof.
  revert m. induction cs as [|c cs IH]; intros m Hi; cbn; [done|].
  destruct (run_call c m) as [o m1] eqn:H1.
  pose proof (invariant_run_call c _ _ _ Hi H1) as Hi1.
  destruct o; auto.
Qed.

Lemma invariant_init cfg cb ctx w :
  I (__init__ E None cb ctx w).2 -> I (__init__ E cfg cb ctx w).2.
Proof.
  intros Hi. destruct cfg as [cfg|]; [|done].
  rewrite init_apply_config.
  destruct (apply_config cfg (__init__ E None cb ctx w).2) as [o m'] eqn:H.
  by eapply invariant_apply_config.
Qed.

End invariant.

(** *** The discipline of the lock *)

Lemma lock_trace_app b (l1 l2 : list (event E)) :
  lock_trace b (l1 ++ l2)
  = match lock_trace b l1 with
    | Some b' => lock_trace b' l2
    | None => None
    end.
Proof.
  revert b. induction l1 as [|ev l1 IH]; intros b; cbn; [done|].
  destruct ev, b; cbn; by rewrite ?IH.
Qed.

Lemma lock_trace_outside b (evs : list (event E)) :
  forallb outside evs = true -> lock_trace b evs = Some b.
Proof.
  induction evs as [|ev evs IH]; cbn; [done|].
  intros [He Hevs]%andb_true_iff. destruct ev; try done; by apply IH.
Qed.

Lemma disciplined_quiet m m' : quiet m m' -> disciplined m -> disciplined m'.
Proof.
  intros (Hl & _ & _ & _ & _ & _ & evs & Ht & He) Hd. unfold disciplined in *.
  by rewrite Ht, lock_trace_app, Hd, Hl, lock_trace_outside.
Qed.

Ltac discipline :=
  unfold disciplined in *; cbn in *;
  repeat (rewrite lock_trace_app; cbn);
  repeat match goal with H : lock_trace false _ = Some _ |- _ => rewrite H; cbn end;
  try done.

Lemma disciplined_send channel it :
  preserves disciplined (_send_to_zmq (E:=E) channel it).
Proof.
  intros [[lk scb mon sock ctx cl] tr ns hs w] o m' Hd H.
  crunch; discipline.
Qed.

Lemma disciplined_connect uri :
  preserves disciplined (_connect_zmq_pub_uri (E:=E) uri).
Proof.
  intros [[lk scb mon sock ctx cl] tr ns hs w] o m' Hd H.
  crunch; discipline.
Qed.

Lemma disciplined_remove_all_clients :
  preserves disciplined (remove_all_clients (E:=E)).
Proof.
  intros m o m' Hd. rewrite remove_all_clients_unfold. unfold bind at 1.
  match goal with |- context [for_each ?l ?b m] =>
    destruct (for_each l b m) as [[[]| |] m1] eqn:H1;
    assert (Hq : quiet m m1)
      by (revert H1; apply quietly_for_each; intros ?; solve_quiet)
  end; pose proof (disciplined_quiet _ _ Hq Hd) as Hd1;
    [|by intros [= <- <-]..].
  rewrite remove_all_clients_tail.
  destruct m1 as [[lk scb mon sock ctx cl] tr ns hs w]. cbn.
  destruct sock, lk; intros [= <- <-]; discipline.
Qed.

Lemma disciplined_monitor_event ev chan :
  preserves disciplined (monitor_event (E:=E) ev chan).
Proof.
  intros [[lk scb mon sock ctx cl] tr ns hs w] o m' Hd H.
  unfold monitor_event in H. destruct mon, ev; crunch; simplify_eq/=; discipline.
Qed.

(** X11: over any sequence of calls on one object, whatever they return or
    raise, the lock is taken only when free and released only when held, and
    the shared socket is made, configured, monitored, connected, sent on and
    closed only while the lock is held; the trace ends in the state the lock
    is in. *)
Theorem lock_discipline cfg sub_callback zmq_context w (cs : list (call E)) :
  let m := run_calls cs (__init__ E cfg sub_callback zmq_context w).2 in
  lock_trace false (trace m) = Some (_lock (self m)).
Proof.
  apply (invariant_run_calls disciplined disciplined_quiet disciplined_send
           disciplined_connect disciplined_remove_all_clients
           disciplined_monitor_event).
  by apply (invariant_init disciplined disciplined_quiet disciplined_connect).
Qed.

(** *** The wiring of the object *)

Lemma wired_quiet cb ctx m m' : quiet m m' -> wired cb ctx m -> wired cb ctx m'.
Proof.
  intros (_ & Hc & Hm & _ & Hx & _) (H1 & H2 & H3). unfold wired.
  by rewrite Hc, Hm, Hx.
Qed.

Lemma wired_send cb ctx channel it :
  preserves (wired cb ctx) (_send_to_zmq (E:=E) channel it).
Proof.
  intros [[lk scb mon sock ctx0 cl] tr ns hs w] o m' Hd H.
  unfold wired in *. crunch.
Qed.

Lemma wired_connect cb ctx uri :
  preserves (wired cb ctx) (_connect_zmq_pub_uri (E:=E) uri).
Proof.
  intros [[lk scb mon sock ctx0 cl] tr ns hs w] o m' (H1 & H2 & H3) H.
  unfold wired in *. cbn in *. subst.
  crunch; split_and!; try done; by intros mo [= <-].
Qed.

Lemma wired_remove_all_clients cb ctx :
  preserves (wired cb ctx) (remove_all_clients (E:=E)).
Proof.
  intros m o m' Hd. rewrite remove_all_clients_unfold. unfold bind at 1.
  match goal with |- context [for_each ?l ?b m] =>
    destruct (for_each l b m) as [[[]| |] m1] eqn:H1;
    assert (Hq : quiet m m1)
      by (revert H1; apply quietly_for_each; intros ?; solve_quiet)
  end; pose proof (wired_quiet _ _ _ _ Hq Hd) as Hd1;
    [|by intros [= <- <-]..].
  rewrite remove_all_clients_tail.
  destruct m1 as [[lk scb mon sock ctx0 cl] tr ns hs w]. cbn.
  destruct sock, lk; by intros [= <- <-].
Qed.

Lemma wired_monitor_event cb ctx ev chan :
  preserves (wired cb ctx) (monitor_event (E:=E) ev chan).
Proof.
  intros [[lk scb mon sock ctx0 cl] tr ns hs w] o m' (H1 & H2 & H3) H.
  unfold monitor_event, wired in *. cbn in *. subst.
  destruct mon as [mo|], ev; crunch; simplify_eq/=; split_and!; try done;
    intros mo' Hmo; simplify_eq/=; exact (H3 _ eq_refl).
Qed.

(** X12: over any sequence of calls on one object the subscription callback
    and the context stay those the constructor set, and the monitor of the
    shared socket, whenever there is one, is bound to that subscription
    callback. *)
Theorem monitor_bound_to_consumer_callback cfg sub_callback zmq_context w
    (cs : list (call E)) :
  let m := run_calls cs (__init__ E cfg sub_callback zmq_context w).2 in
  _sub_callback (self m) = sub_callback
  ∧ _zmq_ctx (self m)
    = match zmq_context with
      | Some c => Some c
      | None => if zmq E then Some GlobalContext else None
      end
  ∧ ∀ mo, _zmq_sub_monitor (self m) = Some mo ->
          sub_callback = Some (Monitor.callback mo).
Proof.
  apply (invariant_run_calls (wired sub_callback _) (wired_quiet _ _)
           (wired_send _ _) (wired_connect _ _) (wired_remove_all_clients _ _)
           (wired_monitor_event _ _)).
  apply (invariant_init (wired sub_callback _) (wired_quiet _ _)
           (wired_connect _ _)).
  by split_and!.
Qed.

(** *** No public call waits for the lock *)

Lemma never_blocks_ret {A} (a : A) : never_blocks (ret (E:=E) a).
Proof. by intros m o m' [= <- <-]. Qed.

Lemma never_blocks_raise {A} x : never_blocks (raise (E:=E) (A:=A) x).
Proof. by intros m o m' [= <- <-]. Qed.

Lemma never_blocks_gets {A} (f : PubControl -> A) : never_blocks (gets (E:=E) f).
Proof. by intros m o m' [= <- <-]. Qed.

Lemma never_blocks_getitem e k : never_blocks (getitem (E:=E) e k).
Proof.
  unfold getitem. destruct (e !! k); [apply never_blocks_ret|apply never_blocks_raise].
Qed.

Lemma never_blocks_emit (ev : event E) : never_blocks (emit ev).
Proof. by intros m o m' [= <- <-]. Qed.

Lemma never_blocks_modify f : never_blocks (modify (E:=E) f).
Proof. by intros m o m' [= <- <-]. Qed.

Lemma never_blocks_call_client (ev : event E) f : never_blocks (call_client ev f).
Proof.
  intros m o m' H. unfold call_client in H. destruct (f (ext m)) as [[x|] w];
    by injection H as <- <-.
Qed.

Lemma never_blocks_new_handler n cb : never_blocks (new_handler (E:=E) n cb).
Proof. by intros m o m' [= <- <-]. Qed.

Lemma never_blocks_bind {A B} (c : M E A) (k : A -> M E B) :
  never_blocks c -> (∀ a, never_blocks (k a)) -> never_blocks (bind c k).
Proof.
  intros Hc Hk m o m' H. unfold bind in H.
  destruct (c m) as [[a| |] m1] eqn:H1; specialize (Hc _ _ _ H1).
  - by eapply Hk.
  - by injection H as <- <-.
  - done.
Qed.

Lemma never_blocks_for_each {A} (l : list A) (body : A -> M E unit) :
  (∀ x, never_blocks (body x)) -> never_blocks (for_each l body).
Proof.
  intros Hb. induction l as [|x l IH]; cbn.
  - apply never_blocks_ret.
  - apply never_blocks_bind; auto.
Qed.

Lemma never_blocks_if {A} (b : bool) (c1 c2 : M E A) :
  never_blocks c1 -> never_blocks c2 -> never_blocks (if b then c1 else c2).
Proof. by destruct b. Qed.

Create HintDb noblock.
#[local] Hint Resolve never_blocks_ret never_blocks_raise never_blocks_gets
  never_blocks_getitem never_blocks_emit never_blocks_modify
  never_blocks_call_client never_blocks_new_handler : noblock.
#[local] Hint Extern 2 (never_blocks (bind _ _)) =>
  (apply never_blocks_bind; [|intros ?]) : noblock.
#[local] Hint Extern 2 (never_blocks (for_each _ _)) =>
  (apply never_blocks_for_each; intros ?) : noblock.
#[local] Hint Extern 2 (never_blocks (if _ then _ else _)) =>
  apply never_blocks_if : noblock.
#[local] Hint Extern 2 (never_blocks (match ?x with _ => _ end)) =>
  destruct x : noblock.

Ltac solve_noblock := eauto 20 with noblock.

Lemma comes_back_never_blocks {A} (c : M E A) : never_blocks c -> comes_back c.
Proof. intros Hc m o m' _ H. by eapply Hc. Qed.

Lemma comes_back_bind {A B} (c : M E A) (k : A -> M E B) :
  preserves ready c -> comes_back c -> (∀ a, comes_back (k a)) ->
  comes_back (bind c k).
Proof.
  intros Hp Hc Hk m o m' Hr H. unfold bind in H.
  destruct (c m) as [[a| |] m1] eqn:H1.
  - eapply Hk; [|done]. by eapply Hp.
  - by injection H as <- <-.
  - by specialize (Hc _ _ _ Hr H1).
Qed.

Lemma comes_back_for_each {A} (l : list A) (body : A -> M E unit) :
  (∀ x, preserves ready (body x)) -> (∀ x, comes_back (body x)) ->
  comes_back (for_each l body).
Proof.
  intros Hp Hb. induction l as [|x l IH]; cbn.
  - apply comes_back_never_blocks, never_blocks_ret.
  - apply comes_back_bind; auto.
Qed.

Lemma comes_back_send_to_zmq channel it : comes_back (_send_to_zmq (E:=E) channel it).
Proof. intros m o m' Hr H. rewrite (send_to_zmq_ready _ _ _ Hr) in H. by injection H as <- <-. Qed.

Lemma comes_back_bus_client e cur : comes_back (bus_client (E:=E) e cur).
Proof.
  unfold bus_client.
  destruct (has_bus_uri e); [|apply comes_back_never_blocks; solve_noblock].
  destruct (zmq E) eqn:Hz; [|cbn; apply comes_back_never_blocks; solve_noblock].
  destruct (tnetstring E) eqn:Ht;
    [|cbn; apply comes_back_never_blocks; solve_noblock].
  cbn. apply comes_back_bind;
    [apply preserves_fixes; solve_fixes
    |apply comes_back_never_blocks; solve_noblock|intros ctx].
  apply comes_back_bind;
    [apply preserves_fixes; solve_fixes
    |apply comes_back_never_blocks; solve_noblock|intros _].
  apply comes_back_bind; [| |intros _; apply comes_back_never_blocks; solve_noblock].
  - match goal with |- context [if ?b then _ else _] => destruct b end;
      [|apply preserves_fixes; solve_fixes].
    apply preserves_bind; [apply preserves_fixes; solve_fixes|intros uri].
    intros m o m' Hr H. destruct (connect_ready uri m Hz Ht Hr) as (m2 & H2 & Hr2).
    congruence.
  - match goal with |- context [if ?b then _ else _] => destruct b end;
      [|apply comes_back_never_blocks; solve_noblock].
    apply comes_back_bind;
      [apply preserves_fixes; solve_fixes
      |apply comes_back_never_blocks; solve_noblock|intros uri].
    intros m o m' Hr H. destruct (connect_ready uri m Hz Ht Hr) as (m2 & H2 & Hr2).
    congruence.
Qed.

Lemma comes_back_apply_config cfg : comes_back (apply_config (E:=E) cfg).
Proof.
  unfold apply_config. apply comes_back_bind.
  - apply preserves_fixes, fixes_for_each, fixes_validate_entry.
  - apply comes_back_never_blocks, never_blocks_for_each. intros e.
    unfold validate_entry. solve_noblock.
  - intros _. apply comes_back_for_each; [apply preserves_construct_entry|].
    intros e. unfold construct_entry. apply comes_back_bind.
    + apply preserves_fixes, fixes_direct_client.
    + apply comes_back_never_blocks. unfold direct_client. solve_noblock.
    + intros r1. apply comes_back_bind;
        [apply preserves_bus_client|apply comes_back_bus_client|intros r2].
      apply comes_back_never_blocks. solve_noblock.
Qed.

Lemma comes_back_remove_all_clients : comes_back (remove_all_clients (E:=E)).
Proof.
  intros m o m' Hr. rewrite remove_all_clients_unfold. unfold bind at 1.
  match goal with |- context [for_each ?l ?b m] =>
    destruct (for_each l b m) as [[[]| |] m1] eqn:H1;
    assert (Hv : full_view m1 = full_view m)
      by (revert H1; apply fixes_for_each; solve_fixes);
    apply guarded_loop_self in H1 as (_ & _ & _ & Hb)
  end; [|by intros [= <- <-]|done].
  pose proof (ready_fixes _ _ Hv Hr) as (Hl & _).
  rewrite remove_all_clients_tail, Hl.
  destruct (_zmq_sock (self m1)); by intros [= <- <-].
Qed.

Lemma comes_back_publish channel it blocking callback :
  comes_back (publish (E:=E) channel it blocking callback).
Proof.
  unfold publish. apply comes_back_bind;
    [apply preserves_send_to_zmq|apply comes_back_send_to_zmq|intros _].
  apply comes_back_never_blocks. solve_noblock.
Qed.


(** *** A non-blocking [publish] *)

Lemma filter_true (cs : list client) : List.filter (λ _, true) cs = cs.
Proof. induction cs as [|c cs IH]; cbn; by rewrite ?IH. Qed.

Lemma loop_returns (ev : client -> event E) f cs m w' :
  calls_return f cs (ext m) w' ->
  for_each cs (λ c, call_client (ev c) (f c)) m
  = (Ret tt, advance m (ev <$> cs) w').
Proof.
  intros H. pose proof (guarded_loop_returns (λ _, true) ev f cs m w') as Hg.
  rewrite filter_true in Hg. exact (Hg H).
Qed.

Lemma loop_raises (ev : client -> event E) f pre c post m w1 x w2 :
  calls_return f pre (ext m) w1 ->
  f c w1 = (Some x, w2) ->
  for_each (pre ++ c :: post) (λ c, call_client (ev c) (f c)) m
  = (Raise x, advance m (ev <$> (pre ++ [c])) w2).
Proof.
  intros H Hc.
  pose proof (guarded_loop_raises (λ _, true) ev f pre c post m w1 x w2 eq_refl)
    as Hg.
  rewrite filter_true in Hg. exact (Hg H Hc).
Qed.

(** X14: a non-blocking [publish] on a machine at rest sends on the bus,
    makes a handler expecting as many completions as there are clients if and
    only if a callback was given, and calls the clients in registration order
    with that handler (or [None]).  When a client raises, [publish] raises
    that error and the clients after it are not called, although the handler
    still expects a completion from every client. *)
Theorem publish_async_dispatch m channel it callback :
  ready m ->
  let cb := match callback with
            | Some _ => Some (length (handlers m))
            | None => None
            end in
  let hs := match callback with
            | Some f =>
                handlers m ++ [Some (Handler.new (length (clients (self m))) f)]
            | None => handlers m
            end in
  let before :=
    bus_events E (_zmq_sock (self m)) channel it
    ++ match callback with
       | Some f =>
           [EvNewHandler (length (handlers m)) (length (clients (self m))) f]
       | None => []
       end in
  (∀ w',
     calls_return (λ c, client_publish E c channel it false cb)
       (clients (self m)) (ext m) w' ->
     publish channel it false callback m
     = (Ret tt,
        {| self := self m;
           trace := trace m ++ before
                    ++ ((λ c, EvPublish c channel it false cb) <$> clients (self m));
           next_socket := next_socket m; handlers := hs; ext := w' |}))
  ∧ (∀ pre c post w1 x w2,
       clients (self m) = pre ++ c :: post ->
       calls_return (λ c, client_publish E c channel it false cb) pre (ext m) w1 ->
       client_publish E c channel it false cb w1 = (Some x, w2) ->
       publish channel it false callback m
       = (Raise x,
          {| self := self m;
             trace := trace m ++ before
                      ++ ((λ c, EvPublish c channel it false cb) <$> (pre ++ [c]));
             next_socket := next_socket m; handlers := hs; ext := w2 |})).
Proof.
  intros Hr cb hs before. unfold publish.
  rewrite (bind_Ret _ _ _ _ _ (send_to_zmq_ready channel it m Hr)).
  unfold cb, hs, before. clear cb hs before.
  destruct callback as [f|]; unfold bind, gets, new_handler, ret;
    cbn [self advance handlers ext fst snd]; split.
  - intros w' H.
    match goal with |- context [for_each _ _ ?m2] =>
      rewrite (loop_returns
                 (λ c, EvPublish c channel it false (Some (length (handlers m))))
                 (λ c, client_publish E c channel it false (Some (length (handlers m))))
                 _ m2 w' H) end.
    unfold advance. cbn [self trace next_socket handlers ext]. by rewrite <-?app_assoc.
  - intros pre c post w1 x w2 -> H Hc.
    match goal with |- context [for_each _ _ ?m2] =>
      rewrite (loop_raises
                 (λ c, EvPublish c channel it false (Some (length (handlers m))))
                 (λ c, client_publish E c channel it false (Some (length (handlers m))))
                 pre c post m2 w1 x w2 H Hc) end.
    unfold advance. cbn [self trace next_socket handlers ext]. by rewrite <-?app_assoc.
  - intros w' H.
    match goal with |- context [for_each _ _ ?m2] =>
      rewrite (loop_returns (λ c, EvPublish c channel it false None)
                 (λ c, client_publish E c channel it false None) _ m2 w' H) end.
    unfold advance. cbn [self trace next_socket handlers ext].
    by rewrite <-?app_assoc, ?app_nil_r.
  - intros pre c post w1 x w2 -> H Hc.
    match goal with |- context [for_each _ _ ?m2] =>
      rewrite (loop_raises (λ c, EvPublish c channel it false None)
                 (λ c, client_publish E c channel it false None)
                 pre c post m2 w1 x w2 H Hc) end.
    unfold advance. cbn [self trace next_socket handlers ext].
    by rewrite <-?app_assoc, ?app_nil_r.
Qed.

(** *** When [apply_config] connects the shared socket *)

Lemma connections_app (l1 l2 : list (event E)) :
  connections (l1 ++ l2) = connections l1 ++ connections l2.
Proof. apply omap_app. Qed.

Lemma connections_outside (evs : list (event E)) :
  forallb outside evs = true -> connections evs = [] ∧ created evs = []
                                ∧ closed evs = [].
Proof.
  induction evs as [|ev evs IH]; cbn; [done|].
  intros [He Hevs]%andb_true_iff. destruct (IH Hevs) as (H1 & H2 & H3).
  unfold connections, created, closed in *. cbn. rewrite H1, H2, H3.
  by destruct ev.
Qed.

Lemma quiet_view m m' :
  quiet m m' ->
  view m' = view m ∧ connections (trace m') = connections (trace m).
Proof.
  intros (_ & _ & _ & Hs & Hx & Hn & evs & Ht & He).
  destruct (connections_outside _ He) as (H1 & H2 & H3). unfold view.
  by rewrite Hs, Hx, Hn, Ht, connections_app, created_app, closed_app, H1, H2, H3,
    !app_nil_r.
Qed.

Lemma bus_client_shared_socket e cur m :
  ready m -> zmq E = true -> tnetstring E = true -> has_bus_uri e = true ->
  ∃ c m', bus_client e cur m = (Ret (Some c), m')
          ∧ if connects_shared_socket e
            then ∃ s uri, e !! "zmq_pub_uri" = Some uri
                          ∧ _zmq_sock (self m') = Some s
                          ∧ connections (trace m')
                            = connections (trace m) ++ [(s, uri)]
            else view m' = view m
                 ∧ connections (trace m') = connections (trace m).
Proof.
  intros Hr Hz Ht Hbus. unfold bus_client. rewrite Hbus, Hz, Ht. cbn [negb].
  change (dict_in "zmq_pub_uri" e
          && (truthy (effective_require_subscribers e)
              || negb (dict_in "zmq_push_uri" e)))
    with (connects_shared_socket e).
  erewrite (bind_Ret (gets _zmq_ctx)) by reflexivity. cbn beta.
  erewrite (bind_Ret (emit _)) by reflexivity. cbn beta.
  match goal with |- context [bind _ _ ?m0] => set (m2 := m0) end.
  assert (Hq2 : quiet m m2) by (by eapply quiet_event).
  assert (Hr2 : ready m2) by exact Hr.
  destruct (quiet_view _ _ Hq2) as [Hv2 Hc2].
  destruct (connects_shared_socket e) eqn:Hcon.
  - unfold connects_shared_socket in Hcon.
    apply andb_true_iff in Hcon as [[uri Hpub]%dict_in_true _].
    destruct (connect_ready_exact uri m2 Hr2 Hz Ht)
      as (m3 & H3 & _ & _ & s & evs & Hs3 & Ht3 & Hc3).
    eexists _, m3. split.
    + erewrite (bind_Ret (bind _ _)); [reflexivity|].
      erewrite (bind_Ret (getitem _ _)); [exact H3|]. unfold getitem.
      by rewrite Hpub.
    + exists s, uri. split; [done|]. split; [done|].
      rewrite Ht3, !connections_app, Hc3, Hc2. done.
  - eexists _, m2. split; [reflexivity|]. done.
Qed.

(** X15: for an entry with a bus URI, on a machine at rest with both
    packages, [apply_config] connects the shared socket to the [zmq_pub_uri]
    exactly when the entry has one and either [zmq_require_subscribers] is
    truthy or there is no [zmq_push_uri]; otherwise it makes no socket and
    no connection. *)
Theorem apply_config_shared_socket e m :
  ready m -> zmq E = true -> tnetstring E = true ->
  rejected e = false -> has_bus_uri e = true ->
  (is_Some (e !! "uri") -> is_Some (e !! "iss") -> is_Some (e !! "key")) ->
  ∃ m', apply_config (ConfigDict e) m = (Ret tt, m')
        ∧ if connects_shared_socket e
          then ∃ s uri, e !! "zmq_pub_uri" = Some uri
                        ∧ _zmq_sock (self m') = Some s
                        ∧ connections (trace m')
                          = connections (trace m) ++ [(s, uri)]
          else view m' = view m
               ∧ connections (trace m') = connections (trace m).
Proof.
  intros Hr Hz Ht Hok Hbus Hkey. unfold apply_config. cbn [as_list].
  rewrite (bind_Ret _ _ _ _ _ (validate_all_ok [e] m ltac:(by constructor))).
  destruct (direct_client_returns e m Hkey) as (r & m1 & H1).
  pose proof (quietly_direct_client e _ _ _ H1) as Hq1.
  pose proof (preserves_fixes _ (fixes_direct_client e) _ _ _ Hr H1) as Hr1.
  destruct (quiet_view _ _ Hq1) as [Hv1 Hc1].
  destruct (bus_client_shared_socket e r m1 Hr1 Hz Ht Hbus) as (c & m2 & H2 & Hif).
  eexists. split.
  - cbn [for_each]. erewrite (bind_Ret (construct_entry e)); [reflexivity|].
    unfold construct_entry.
    rewrite (bind_Ret _ _ _ _ _ H1), (bind_Ret _ _ _ _ _ H2). reflexivity.
  - unfold view in *.
    cbn [trace self next_socket with_self set_clients _zmq_sock _zmq_ctx].
    destruct (connects_shared_socket e).
    + destruct Hif as (s & uri & Hpub & Hs & Hc). exists s, uri.
      by rewrite Hc, Hc1.
    + destruct Hif as [Hv Hc]. split; congruence.
Qed.

(** *** [add_client] *)

(** X16: any sequence of [add_client] calls returns and appends the clients
    to the list in the order of the calls, duplicates included, changing
    nothing else. *)
Theorem add_client_sequence (cs : list client) m :
  for_each cs add_client m
  = (Ret tt, with_self (set_clients (clients (self m) ++ cs)) m).
Proof.
  revert m. induction cs as [|c cs IH]; intros m; cbn [for_each].
  - unfold ret, with_self. rewrite app_nil_r. by destruct m as [[] ? ? ? ?].
  - erewrite (bind_Ret (add_client c)) by reflexivity. rewrite IH.
    unfold with_self. cbn. by rewrite <-app_assoc.
Qed.
End Properties.


(** * The properties at concrete inputs *)

Import Example.

(** C2, where the code departs from it: the object was made with a
    subscription callback, a bus client whose own monitor already holds the
    channel [c] was added, and a pub URI was configured.  A raw [sub] event
    for [c] on the monitor of the shared socket leaves the aggregate state of
    [c] true as it was, and still reaches the consumer's callback. *)
Theorem sub_event_without_edge_reaches_consumer :
  let m := two_monitors in
  let m' := (monitor_event sub "c" m).2 in
  aggregate_subscribed client_bus_subscriptions (self m) "c" = true
  ∧ aggregate_subscribed client_bus_subscriptions (self m') "c" = true
  ∧ trace m' = trace m ++ [EvSubCallback 7 sub "c"].
Proof. vm_compute. done. Qed.



(** C3, as first stated, fails: for an entry with a [uri], an issuer and a
    bus URI the direct-publish client is constructed and given its JWT, but
    the only client registered is the bus-publish one. *)
Lemma apply_config_drops_direct_client :
  let m := (apply_config (ConfigDict entry_both) fresh).2 in
  EvNewClient (PubControlClient (PyStr "https://a.example/pub") None) ∈ trace m
  ∧ EvSetAuthJwt (PubControlClient (PyStr "https://a.example/pub") None)
      (PyStr "realm") (PyStr "k") ∈ trace m
  ∧ clients (self m)
    = [ZmqPubControlClient (PyStr "tcp://bus:5563") PyNone PyNone (PyBool false)
         true None (Some GlobalContext)]
  ∧ existsb is_PubControlClient (clients (self m)) = false.
Proof.
  vm_compute. split; [|split; [|split; reflexivity]].
  - apply list_elem_of_here.
  - apply list_elem_of_further, list_elem_of_here.
Qed.

(** One round of the construction loop on an entry with a [uri] and a bus
    URI. *)
Lemma construct_entry_registers_last_witness :
  construct_entry entry_both fresh = (Ret tt, (construct_entry entry_both fresh).2)
  ∧ clients (self (construct_entry entry_both fresh).2)
    = clients (self fresh)
      ++ [ZmqPubControlClient (dict_get entry_both "zmq_uri")
            (dict_get entry_both "zmq_push_uri") (dict_get entry_both "zmq_pub_uri")
            (effective_require_subscribers entry_both) true None
            (_zmq_ctx (self fresh))].
Proof.
  assert (H : construct_entry entry_both fresh
              = (Ret tt, (construct_entry entry_both fresh).2))
    by (vm_compute; reflexivity).
  split; [exact H|].
  apply (proj1 (construct_entry_registers_last _ _ _ H)). vm_compute. reflexivity.
Defined.

Lemma ready_three_clients : ready three_clients.
Proof.
  split; [reflexivity|]. split.
  - intros _. vm_compute. by eexists.
  - intros [s Hs]. vm_compute in Hs. discriminate.
Defined.

(** A blocking publish on three clients, the second of which raises. *)
Lemma publish_blocking_in_order_until_error_witness :
  ready three_clients
  ∧ publish (E:=env) "ch1" "hi" true None three_clients
    = (Raise (ClientError "timeout"),
       advance three_clients
         (bus_events env None "ch1" "hi"
          ++ [EvPublish (E:=env) client_a "ch1" "hi" true None;
              EvPublish (E:=env) client_down "ch1" "hi" true None]) tt).
Proof.
  split; [exact ready_three_clients|].
  apply (proj2 (publish_blocking_in_order_until_error three_clients "ch1" "hi"
                  None ready_three_clients)
           [client_a] client_down [client_b] tt (ClientError "timeout") tt).
  - vm_compute. reflexivity.
  - econstructor; [reflexivity|constructor].
  - reflexivity.
Defined.

(** A valid entry followed by a rejected one. *)
Lemma apply_config_rejects_before_constructing_witness :
  entry_bus_false ∈ as_list (ConfigList [entry_a; entry_bus_false])
  ∧ dict_get entry_bus_false "zmq_require_subscribers" = PyBool false
  ∧ entry_bus_false !! "zmq_pub_uri" = None
  ∧ apply_config (ConfigList [entry_a; entry_bus_false]) fresh
    = (Raise zmq_pub_uri_error, fresh).
Proof.
  assert (H1 : entry_bus_false ∈ as_list (ConfigList [entry_a; entry_bus_false]))
    by apply list_elem_of_further, list_elem_of_here.
  assert (H2 : dict_get entry_bus_false "zmq_require_subscribers" = PyBool false)
    by (vm_compute; reflexivity).
  assert (H3 : entry_bus_false !! "zmq_pub_uri" = None) by (vm_compute; reflexivity).
  split; [exact H1|]. split; [exact H2|]. split; [exact H3|].
  exact (apply_config_rejects_before_constructing _ fresh _ H1 H2 H3).
Defined.

Lemma api_reachable_with_socket : api_reachable with_socket.
Proof.
  apply (reach_init env (Some (ConfigList [entry_pub; entry_a])) None None tt).
  vm_compute. reflexivity.
Defined.

(** The bus send of a publish on an object that holds a shared socket. *)
Lemma publish_sends_to_zmq_first_witness :
  api_reachable with_socket
  ∧ _send_to_zmq (E:=env) "ch1" "hi" with_socket
    = (Ret tt,
       advance with_socket
         [EvAcquire; EvSend 0 ["ch1"; "hi"]; EvRelease] tt).
Proof.
  split; [exact api_reachable_with_socket|].
  exact (proj1 (publish_sends_to_zmq_first with_socket "ch1" "hi" false None
                  api_reachable_with_socket)).
Defined.

(** C7, as first stated, fails: [apply_config] with a pub URI,
    [remove_all_clients], then [apply_config] again makes two sockets in the
    lifetime of one object. *)
Lemma socket_created_twice :
  created (trace (run_calls reconnect fresh)) = [0; 1]
  ∧ closed (trace (run_calls reconnect fresh)) = [0]
  ∧ ¬ length (created (trace (run_calls reconnect fresh))) <= 1.
Proof. vm_compute. split; [done|]. split; [done|]. lia. Qed.

(** Without the [zmq] package, a direct entry followed by a bus entry. *)
Lemma apply_config_not_atomic_witness :
  Forall (λ e, rejected e = false) ([entry_a] ++ entry_bus :: [])
  ∧ apply_config (ConfigList [entry_a]) fresh_no_zmq
    = (Ret tt, (apply_config (ConfigList [entry_a]) fresh_no_zmq).2)
  ∧ construct_entry entry_bus (apply_config (ConfigList [entry_a]) fresh_no_zmq).2
    = (Raise (ValueError "zmq package must be installed"),
       (construct_entry entry_bus
          (apply_config (ConfigList [entry_a]) fresh_no_zmq).2).2)
  ∧ apply_config (ConfigList ([entry_a] ++ entry_bus :: [])) fresh_no_zmq
    = (Raise (ValueError "zmq package must be installed"),
       (construct_entry entry_bus
          (apply_config (ConfigList [entry_a]) fresh_no_zmq).2).2)
  ∧ clients (self (construct_entry entry_bus
                     (apply_config (ConfigList [entry_a]) fresh_no_zmq).2).2)
    = [client_a].
Proof.
  assert (H1 : Forall (λ e, rejected e = false) ([entry_a] ++ entry_bus :: []))
    by (repeat constructor).
  assert (H2 : apply_config (ConfigList [entry_a]) fresh_no_zmq
               = (Ret tt, (apply_config (ConfigList [entry_a]) fresh_no_zmq).2))
    by (vm_compute; reflexivity).
  assert (H3 : construct_entry entry_bus
                 (apply_config (ConfigList [entry_a]) fresh_no_zmq).2
               = (Raise (ValueError "zmq package must be installed"),
                  (construct_entry entry_bus
                     (apply_config (ConfigList [entry_a]) fresh_no_zmq).2).2))
    by (vm_compute; reflexivity).
  destruct (apply_config_not_atomic [entry_a] [] entry_bus _ _ _ _ H1 H2 H3)
    as [H4 H5].
  split; [exact H1|]. split; [exact H2|]. split; [exact H3|].
  split; [exact H4|]. rewrite H5. vm_compute. reflexivity.
Defined.


(** An entry with a [zmq_uri] and nothing else. *)
Lemma omitted_require_subscribers_accepted_witness :
  dict_get entry_bus "zmq_require_subscribers" = PyNone
  ∧ entry_bus !! "zmq_pub_uri" = None
  ∧ (∃ m', apply_config (ConfigDict entry_bus) fresh = (Ret tt, m')
           ∧ clients (self m')
             = [ZmqPubControlClient (PyStr "tcp://bus:5563") PyNone PyNone
                  (PyBool false) true None (Some GlobalContext)])
  ∧ apply_config
      (ConfigDict (<["zmq_require_subscribers" := PyBool false]> entry_bus)) fresh
    = (Raise zmq_pub_uri_error, fresh).
Proof.
  assert (H1 : dict_get entry_bus "zmq_require_subscribers" = PyNone)
    by (vm_compute; reflexivity).
  assert (H2 : entry_bus !! "zmq_pub_uri" = None) by (vm_compute; reflexivity).
  assert (H3 : is_Some (entry_bus !! "zmq_uri") ∨ is_Some (entry_bus !! "zmq_push_uri"))
    by (left; vm_compute; by eexists).
  assert (H4 : is_Some (entry_bus !! "uri") -> is_Some (entry_bus !! "iss") ->
               is_Some (entry_bus !! "key"))
    by (intros [x Hx]; vm_compute in Hx; discriminate).
  destruct (omitted_require_subscribers_accepted entry_bus fresh H1 H2 H3
              eq_refl eq_refl H4) as (_ & (m' & H5 & H6) & H7).
  split; [exact H1|]. split; [exact H2|]. split; [|exact H7].
  exists m'. split; [exact H5|]. rewrite H6. vm_compute. reflexivity.
Defined.

(** ** The further properties at concrete inputs *)

(** [finish] on four clients: the bus client is skipped and the third client
    fails to finish. *)
Lemma finish_calls_direct_clients_witness :
  finish four_clients
  = (Raise (ClientError "not drained"),
     advance four_clients
       [EvFinish (E:=env_failing) client_a; EvFinish (E:=env_failing) client_down]
       tt).
Proof.
  apply (proj2 (finish_calls_direct_clients four_clients)
           [client_a; client_bus] client_down [client_b] tt
           (ClientError "not drained") tt).
  - vm_compute. reflexivity.
  - reflexivity.
  - econstructor; [reflexivity|constructor].
  - reflexivity.
Defined.

(** [remove_all_clients] on an object with a bus client, a direct client and
    the shared socket. *)
Lemma remove_all_clients_closes_bus_clients_witness :
  _lock (self with_socket) = false
  ∧ trace (remove_all_clients with_socket).2
    = trace with_socket
      ++ [EvClose (E:=env)
            (ZmqPubControlClient PyNone PyNone (PyStr "tcp://bus:5562")
               (PyBool false) true None (Some GlobalContext));
          EvAcquire; EvSockClose 0; EvRelease].
Proof.
  assert (H1 : _lock (self with_socket) = false) by reflexivity.
  split; [exact H1|].
  rewrite (remove_all_clients_closes_bus_clients with_socket tt H1).
  - vm_compute. reflexivity.
  - vm_compute. econstructor; [reflexivity|constructor].
Defined.


Lemma remove_all_clients_idempotent_witness :
  remove_all_clients with_socket = (Ret tt, (remove_all_clients with_socket).2)
  ∧ remove_all_clients (remove_all_clients with_socket).2
    = (Ret tt, (remove_all_clients with_socket).2).
Proof.
  assert (H : remove_all_clients with_socket
              = (Ret tt, (remove_all_clients with_socket).2))
    by (vm_compute; reflexivity).
  split; [exact H|].
  exact (remove_all_clients_idempotent _ _ H).
Defined.

Lemma apply_config_app_witness :
  Forall (λ e, rejected e = false) [entry_b]
  ∧ apply_config (ConfigList ([entry_a] ++ [entry_b])) fresh
    = bind (apply_config (ConfigList [entry_a]))
        (λ _, apply_config (ConfigList [entry_b])) fresh.
Proof.
  assert (H : Forall (λ e, rejected e = false) [entry_b]) by (repeat constructor).
  split; [exact H|].
  exact (apply_config_app [entry_a] [entry_b] fresh H).
Defined.

Lemma apply_config_iss_without_key_witness :
  rejected entry_no_key = false
  ∧ entry_no_key !! "key" = None
  ∧ apply_config (ConfigDict entry_no_key) fresh
    = (Raise (KeyError "key"),
       advance fresh
         [EvNewClient (E:=env) (PubControlClient (PyStr "https://a.example/pub") None)]
         tt).
Proof.
  assert (H1 : rejected entry_no_key = false) by (vm_compute; reflexivity).
  assert (H2 : entry_no_key !! "key" = None) by (vm_compute; reflexivity).
  split; [exact H1|]. split; [exact H2|].
  apply (apply_config_iss_without_key entry_no_key fresh
           (PyStr "https://a.example/pub") (PyStr "realm") H1);
    [vm_compute; reflexivity..|exact H2].
Defined.

Lemma apply_config_missing_package_witness :
  rejected entry_bus = false ∧ has_bus_uri entry_bus = true
  ∧ ∃ m', apply_config (ConfigDict entry_bus) fresh_no_zmq
          = (Raise (ValueError "zmq package must be installed"), m')
          ∧ self m' = self fresh_no_zmq.
Proof.
  assert (H1 : rejected entry_bus = false) by (vm_compute; reflexivity).
  assert (H2 : has_bus_uri entry_bus = true) by (vm_compute; reflexivity).
  assert (H3 : is_Some (entry_bus !! "uri") -> is_Some (entry_bus !! "iss") ->
               is_Some (entry_bus !! "key"))
    by (intros [x Hx]; vm_compute in Hx; discriminate).
  split; [exact H1|]. split; [exact H2|].
  destruct (apply_config_missing_package entry_bus fresh_no_zmq H1 H2 H3 eq_refl)
    as (m' & H4 & H5 & _).
  exists m'. split; [exact H4|exact H5].
Defined.

Lemma connect_reuses_socket_witness :
  _lock (self with_socket) = false ∧ _zmq_sock (self with_socket) = Some 0
  ∧ _connect_zmq_pub_uri (PyStr "tcp://other:5562") with_socket
    = (Ret tt,
       advance with_socket
         [EvAcquire; EvConnect 0 (PyStr "tcp://other:5562"); EvRelease] tt).
Proof.
  assert (H1 : _lock (self with_socket) = false) by reflexivity.
  assert (H2 : _zmq_sock (self with_socket) = Some 0) by reflexivity.
  split; [exact H1|]. split; [exact H2|].
  exact (connect_reuses_socket _ with_socket 0 H1 H2).
Defined.

Lemma connect_without_zmq_keeps_lock_witness :
  zmq env_no_zmq = false
  ∧ ∃ x m', _connect_zmq_pub_uri (PyStr "tcp://bus:5562") fresh_no_zmq
            = (Raise (AttributeError x), m')
            ∧ _lock (self m') = true
            ∧ publish (E:=env_no_zmq) "ch1" "hi" true None m' = (Blocked, m').
Proof.
  split; [reflexivity|].
  destruct (connect_without_zmq_keeps_lock (E:=env_no_zmq)
              (PyStr "tcp://bus:5562") fresh_no_zmq "ch1" "hi" true None
              eq_refl eq_refl eq_refl) as (x & m' & H1 & H2 & _ & _ & H3).
  exists x, m'. split; [exact H1|]. split; [exact H2|exact H3].
Defined.


(** A non-blocking publish with a callback on three clients, the second of
    which raises: the handler expects three completions and two clients were
    called. *)
Lemma publish_async_dispatch_witness :
  ready three_clients
  ∧ publish (E:=env) "ch1" "hi" false (Some 5) three_clients
    = (Raise (ClientError "timeout"),
       {| self := self three_clients;
          trace :=
            trace three_clients
            ++ [EvAcquire; EvRelease; EvNewHandler 0 3 5;
                EvPublish (E:=env) client_a "ch1" "hi" false (Some 0);
                EvPublish (E:=env) client_down "ch1" "hi" false (Some 0)];
          next_socket := 0;
          handlers := [Some (Handler.new 3 5)];
          ext := tt |}).
Proof.
  split; [exact ready_three_clients|].
  rewrite (proj2 (publish_async_dispatch three_clients "ch1" "hi" (Some 5)
                    ready_three_clients)
             [client_a] client_down [client_b] tt (ClientError "timeout") tt).
  - vm_compute. reflexivity.
  - vm_compute. reflexivity.
  - econstructor; [reflexivity|constructor].
  - reflexivity.
Defined.

Lemma ready_fresh : ready fresh.
Proof.
  split; [reflexivity|]. split.
  - intros _. vm_compute. by eexists.
  - intros [s Hs]. vm_compute in Hs. discriminate.
Defined.

Lemma apply_config_shared_socket_witness :
  ready fresh ∧ connects_shared_socket entry_pub = true
  ∧ ∃ m', apply_config (ConfigDict entry_pub) fresh = (Ret tt, m')
          ∧ ∃ s uri, entry_pub !! "zmq_pub_uri" = Some uri
                     ∧ _zmq_sock (self m') = Some s
                     ∧ connections (trace m')
                       = connections (trace fresh) ++ [(s, uri)].
Proof.
  assert (H0 : connects_shared_socket entry_pub = true) by (vm_compute; reflexivity).
  assert (H1 : rejected entry_pub = false) by (vm_compute; reflexivity).
  assert (H2 : has_bus_uri entry_pub = true) by (vm_compute; reflexivity).
  assert (H3 : is_Some (entry_pub !! "uri") -> is_Some (entry_pub !! "iss") ->
               is_Some (entry_pub !! "key"))
    by (intros [x Hx]; vm_compute in Hx; discriminate).
  split; [exact ready_fresh|]. split; [exact H0|].
  destruct (apply_config_shared_socket entry_pub fresh ready_fresh eq_refl
              eq_refl H1 H2 H3) as (m' & H4 & H5).
  exists m'. split; [exact H4|]. rewrite H0 in H5. exact H5.
Defined.
